(** * gotools/render: page rendering and the error-fallback cascade

    A shallow embedding of [render/render.go]: the four public render
    functions [Render], [RenderPage], [RenderStandalone] and [RenderError].

    Go maps are reference values, so the data bag lives in a small heap of
    maps and the functions receive a reference to it ([None] is Go's nil
    map).  The helpers that [render.go] calls but does not define
    ([parsePath], [pathsToTemplates], [renderAt], [ErrorCode], [ErrorPath],
    the registries and the configuration) are the fields of the class
    [World]; every general theorem holds for all of them. *)

From Stdlib Require Import Ascii.
From stdpp Require Import base strings gmap list pretty.

Open Scope Z_scope.

(** ** Data *)

(** Go's [[]byte]: [None] is the nil slice. *)
Definition Bytes : Type := option string.

(** [string(bytes)] *)
Definition string_of (b : Bytes) : string := default "" b.

(** [len(bytes)] *)
Definition len (b : Bytes) : nat := String.length (string_of b).

(** References to maps on the heap. *)
Definition loc : Type := nat.

(** The two template registries of the package. *)
Inductive which : Type := InPages | InStandalone.

(** Observable steps of a render call, in the order they happen.  The trace
    is instrumentation: it records which pages were attempted, which
    templates were executed and what was logged. *)
Inductive event : Type :=
  | EvPage (path : string)               (* RenderPage entered, past the readiness check *)
  | EvExec (r : which) (pt : string)     (* renderAt(pt, data, r) *)
  | EvLog (msg : string).                (* log(msg) *)

(** How a call ends: it returns, it panics, or the model ran out of fuel
    before the call returned. *)
Inductive outcome (A : Type) : Type :=
  | Done (a : A)
  | Panic
  | OutOfFuel.
Arguments Done {A} a.
Arguments Panic {A}.
Arguments OutOfFuel {A}.

(** ** The package's collaborators *)

(** A value of Go's [interface{}] stored in a data bag: either a
    [template.HTML] string or something else. *)
Inductive value (any : Type) : Type :=
  | HTML (s : string)
  | Other (a : any).
Arguments HTML {any} s.
Arguments Other {any} a.

(** What [render.go] uses and does not define.  The helpers are functions
    of their arguments: executing a template reads the bag and does not
    write to it. *)
Class World : Type := {
  error : Type;                 (* non-nil values of Go's [error] *)
  any : Type;                   (* values of [interface{}] other than template.HTML *)
  registry : Type;              (* *template.Template *)
  Pages : registry;
  Standalone : registry;
  Lookup : registry -> string -> bool;    (* temps.Lookup(path) != nil *)
  ready : bool;                 (* whether setup has been run *)
  UltimateFailure : Bytes;      (* conf.UltimateFailure *)
  err404 : error;
  err500ISE : string;
  ErrorCode : error -> Z;
  ErrorPath : error -> string;
  parsePath : string -> registry -> string * option error;
  pathsToTemplates : string -> list string;
  renderAt : string -> option (gmap string (value any)) -> registry
             -> Bytes * option error;
  TrimSpace : string -> string  (* strings.TrimSpace *)
}.

(** The type assertion [v.(template.HTML)] with the comma-ok result dropped:
    the zero value when the key is absent or holds another type. *)
Definition html_of {any : Type} (v : option (value any)) : string :=
  match v with
  | Some (HTML s) => s
  | _ => ""
  end.

(** ** State: the heap of maps and the trace *)

Record state_of (any : Type) : Type := mkState {
  heap : gmap loc (gmap string (value any));
  trace : list event
}.
Arguments mkState {any}.
Arguments heap {any}.
Arguments trace {any}.

(** The local variables of [RenderError]: the parameter [err], the named
    results [bytes] and [lastErr], and the set [codes]. *)
Record locals_of (error : Type) : Type := mkLocals {
  l_err : option error;
  l_bytes : Bytes;
  l_lastErr : option error;
  l_codes : gset Z
}.
Arguments mkLocals {error}.
Arguments l_err {error}.
Arguments l_bytes {error}.
Arguments l_lastErr {error}.
Arguments l_codes {error}.

(** How one pass through the body of the loop of [RenderError] ends. *)
Inductive flow_of (error : Type) : Type :=
  | Next (v : locals_of error)
  | Break (v : locals_of error).
Arguments Next {error}.
Arguments Break {error}.

(** ** Vocabulary of the statements about states *)

(** The bag a call works on: the caller's map, or the empty map that
    [RenderPage] substitutes for nil. *)
Definition start_bag {any : Type} (data : option loc) (s : state_of any)
  : gmap string (value any) :=
  match data with
  | None => ∅
  | Some l => default ∅ (heap s !! l)
  end.

(** The reference that bag is found at during the call. *)
Definition cell {any : Type} (data : option loc) (s : state_of any) : loc :=
  match data with
  | None => fresh (dom (heap s))
  | Some l => l
  end.

(** What the template executor is handed for a reference: nil stays nil. *)
Definition view {any : Type} (data : option loc) (s : state_of any)
  : option (gmap string (value any)) :=
  match data with
  | None => None
  | Some l => Some (default ∅ (heap s !! l))
  end.

(** A non-nil reference points to a map of the heap. *)
Definition live {any : Type} (data : option loc) (s : state_of any) : Prop :=
  match data with
  | None => True
  | Some l => is_Some (heap s !! l)
  end.

(** The number of pages attempted along a trace. *)
Definition is_page (e : event) : bool :=
  match e with
  | EvPage _ => true
  | _ => false
  end.

Definition attempts (t : list event) : nat := length (List.filter is_page t).

(** [touches_only_content data s s']: from [s] to [s'] every map of the
    heap is still there, a map other than the caller's bag is unchanged, and
    the caller's bag differs at most under the "content" key. *)
Definition touches_only_content {any : Type} (data : option loc)
    (s s' : state_of any) : Prop :=
  forall (l : loc) (m : gmap string (value any)),
    heap s !! l = Some m ->
    exists m',
      heap s' !! l = Some m' /\
      (forall k : string, k <> "content" -> m' !! k = m !! k) /\
      (data <> Some l -> m' = m).

(** The same types in a given world. *)
Abbreviation Bag := (gmap string (value any)).
Abbreviation state := (state_of any).
Abbreviation locals := (locals_of error).
Abbreviation flow := (flow_of error).

Section Render.

Context `{W : World}.

(** ** The monad of the render functions: state, panics and fuel *)

Definition M (A : Type) : Type := state -> outcome A * state.

Definition ret {A : Type} (a : A) : M A := fun s => (Done a, s).

Definition bind {A B : Type} (m : M A) (k : A -> M B) : M B :=
  fun s =>
    match m s with
    | (Done a, s') => k a s'
    | (Panic, s') => (Panic, s')
    | (OutOfFuel, s') => (OutOfFuel, s')
    end.

Declare Scope render_scope.
Delimit Scope render_scope with render.
Notation "x <- m ;; k" := (bind m (fun x => k))
  (at level 100, m at next level, k at level 200, right associativity)
  : render_scope.
Notation "m ;; k" := (bind m (fun _ => k))
  (at level 100, k at level 200, right associativity) : render_scope.
Local Open Scope render_scope.

Definition panic {A : Type} : M A := fun s => (Panic, s).
Definition out_of_fuel {A : Type} : M A := fun s => (OutOfFuel, s).

Definition emit (e : event) : M unit :=
  fun s => (Done tt, mkState (heap s) (trace s ++ [e])).

(** The map a live reference points to. *)
Definition load (l : loc) : M Bag :=
  fun s => (Done (default ∅ (heap s !! l)), s).

(** [data[k] = v] *)
Definition store (l : loc) (k : string) (v : value any) : M unit :=
  fun s =>
    (Done tt,
     mkState (<[l := <[k := v]> (default ∅ (heap s !! l))]> (heap s)) (trace s)).

(** [map[string]interface{}{}] *)
Definition alloc : M loc :=
  fun s =>
    let l := fresh (dom (heap s)) in
    (Done l, mkState (<[l := ∅]> (heap s)) (trace s)).

(** What [renderAt] sees through a possibly nil reference. *)
Definition deref (data : option loc) : M (option Bag) :=
  match data with
  | None => ret None
  | Some l => m <- load l ;; ret (Some m)
  end.

(** Modelled from the spec: [assertReady] is declared outside [render.go].
    Section 5 of the specification: the readiness check fails fast with a
    panic when a render function is invoked before initialization. *)
Definition assertReady : M unit :=
  if ready then ret tt else panic.

(** [log(msg)], declared outside [render.go]: recorded on the trace. *)
Definition log (msg : string) : M unit := emit (EvLog msg).

(** ** RenderPage *)

(** The loop [for _, pt := range paths] of [RenderPage]; the result is the
    error of the early return, if any. *)
Fixpoint RenderPage_loop (paths : list string) (data : loc) : M (option error) :=
  match paths with
  | [] => ret None
  | pt :: rest =>
      m <- load data ;;
      emit (EvExec InPages pt) ;;
      let '(bytes, err) := renderAt pt (Some m) Pages in
      match err with
      | Some e => ret (Some e)
      | None =>
          store data "content" (HTML (TrimSpace (string_of bytes))) ;;
          RenderPage_loop rest data
      end
  end.

Definition RenderPage (path : string) (data : option loc) : M (Bytes * option error) :=
  assertReady ;;
  emit (EvPage path) ;;
  data <- match data with
          | None => alloc
          | Some l => ret l
          end ;;
  let '(path, err) := parsePath path Pages in
  match err with
  | Some e => ret (None, Some e)
  | None =>
      let paths := pathsToTemplates path in
      r <- RenderPage_loop paths data ;;
      match r with
      | Some e => ret (None, Some e)
      | None =>
          m <- load data ;;
          ret (Some (html_of (m !! "content")), None)
      end
  end.

(** ** RenderStandalone *)

Definition RenderStandalone (path : string) (data : option loc) : M (Bytes * option error) :=
  assertReady ;;
  if Lookup Standalone path then
    m <- deref data ;;
    emit (EvExec InStandalone path) ;;
    ret (renderAt path m Standalone)
  else ret (None, Some err404).

(** ** RenderError *)

(** The bytes chosen on a double 500. *)
Definition fallback : Bytes :=
  if bool_decide (0 < len UltimateFailure)%nat then UltimateFailure
  else Some err500ISE.

(** The body of [for err != nil], entered with [l_err v = Some err]. *)
Definition RenderError_body (data : option loc) (err : error) (v : locals) : M flow :=
  let lastErr := Some err in
  let code := ErrorCode err in
  if bool_decide (code ∈ l_codes v) then
    if bool_decide (code = 500) then
      log "internal rendering error" ;;
      ret (Break (mkLocals (Some err) fallback lastErr (l_codes v)))
    else
      let code := 500 in
      let codes := {[code]} ∪ l_codes v in
      r <- RenderPage (ErrorPath err) data ;;
      ret (Next (mkLocals (snd r) (fst r) lastErr codes))
  else
    let codes := {[code]} ∪ l_codes v in
    r <- RenderPage (ErrorPath err) data ;;
    ret (Next (mkLocals (snd r) (fst r) lastErr codes)).

Fixpoint RenderError_loop (fuel : nat) (data : option loc) (v : locals) : M locals :=
  match l_err v with
  | None => ret v
  | Some err =>
      match fuel with
      | O => out_of_fuel
      | S fuel' =>
          f <- RenderError_body data err v ;;
          match f with
          | Next v' => RenderError_loop fuel' data v'
          | Break v' => ret v'
          end
      end
  end.

(** The loop followed by the bare [return] of the named results. *)
Definition RenderError_from (fuel : nat) (data : option loc) (v : locals)
  : M (Bytes * option error) :=
  v' <- RenderError_loop fuel data v ;;
  ret (l_bytes v', l_lastErr v').

(** The locals on entry: [codes] empty, the named results at their zero
    values. *)
Definition entry (err : option error) : locals := mkLocals err None None ∅.

Definition RenderError (fuel : nat) (err : option error) (data : option loc)
  : M (Bytes * option error) :=
  RenderError_from fuel data (entry err).

(** ** Render *)

Definition Render (fuel : nat) (path : string) (data : option loc)
  : M (Bytes * option error) :=
  assertReady ;;
  r <- RenderPage path data ;;
  match snd r with
  | Some err => RenderError fuel (Some err) data
  | None => ret (fst r, None)
  end.

(** ** Vocabulary of the statements about the render functions *)

(** [composed paths m m']: every template of [paths] executes without
    error, in order, each against the bag left by the one before it, and
    takes the bag from [m] to [m']. *)
Inductive composed : list string -> Bag -> Bag -> Prop :=
  | composed_nil (m : Bag) : composed [] m m
  | composed_cons (pt : string) (rest : list string) (m m' : Bag) (bytes : Bytes) :
      renderAt pt (Some m) Pages = (bytes, None) ->
      composed rest (<["content" := HTML (TrimSpace (string_of bytes))]> m) m' ->
      composed (pt :: rest) m m'.

(** [passes data (v, s) (v', s')]: the cascade goes from the loop head with
    locals [v] in state [s] to the loop head with [v'] in [s'] by complete
    passes through the loop body. *)
Inductive passes (data : option loc) : locals * state -> locals * state -> Prop :=
  | passes_refl (x : locals * state) : passes data x x
  | passes_step (v v1 : locals) (s s1 : state) (e : error) (x : locals * state) :
      l_err v = Some e ->
      RenderError_body data e v s = (Done (Next v1), s1) ->
      passes data (v1, s1) x ->
      passes data (v, s) x.

(** How a finished cascade ended, for the locals [v'] it ended with: on the
    fallback bytes after a double 500, or on a page rendered for the last
    error. *)
Definition ended (data : option loc) (v' : locals) (e' : error) : Prop :=
  l_lastErr v' = Some e' /\
  ((l_bytes v' = fallback /\ ErrorCode e' = 500) \/
   (exists out s1 s2,
       l_bytes v' = Some out /\
       RenderPage (ErrorPath e') data s1 = (Done (Some out, None), s2))).

(** [meets_codes_once K data e s]: along the cascade that starts with the
    error [e] in state [s], every error met at the head of the loop has its
    code in [K], and a code already in [codes] is not met again unless it is
    500. *)
Definition meets_codes_once (K : gset Z) (data : option loc) (e : error)
    (s : state) : Prop :=
  forall (v : locals) (s' : state) (e' : error),
    passes data (entry (Some e), s) (v, s') ->
    l_err v = Some e' ->
    ErrorCode e' ∈ K /\ (ErrorCode e' ∈ l_codes v -> ErrorCode e' = 500).

End Render.

(** ** Concrete worlds

    A small, executable family of worlds used to run the render functions on
    concrete inputs.  Its helpers follow the interfaces that the
    specification gives for the parts declared outside [render.go]. *)
Module Sample.

(** Errors: the not-found error, an error carrying a status code, and an
    unclassified failure. *)
Inductive err : Type :=
  | NotFound
  | Status (code : Z)
  | Failure (msg : string).

(** Modelled from the spec: [ErrorCode] is declared outside [render.go].
    Section 4.4: NotFound maps to 404, anything unclassified to 500. *)
Definition code (e : err) : Z :=
  match e with
  | NotFound => 404
  | Status c => c
  | Failure _ => 500
  end.

(** Modelled from the spec: [ErrorPath] is declared outside [render.go].
    Section 4.4: the override registered for the error's code if there is
    one, else the code's decimal string. *)
Definition errorPath (codePath : gmap Z string) (e : err) : string :=
  default (pretty (code e)) (codePath !! code e).

(** A compiled template: what executing it against a bag produces. *)
Definition tmpl : Type := gmap string (value string) -> Bytes * option err.

Definition found (r : gmap string tmpl) (path : string) : bool :=
  match r !! path with
  | Some _ => true
  | None => false
  end.

(** Modelled from the spec: [parsePath] is declared outside [render.go].
    Section 4.1: empty paths are rejected, and the path fails with NotFound
    when no template is registered for it or when there is no root layout.
    Paths are taken as already normalized. *)
Definition parse (path : string) (r : gmap string tmpl) : string * option err :=
  if bool_decide (path = "") then ("", Some NotFound)
  else if found r path && found r "" then (path, None)
  else ("", Some NotFound).

(** Splitting a path at its separators. *)
Fixpoint segments_go (cur : string) (s : string) : list string :=
  match s with
  | EmptyString => [String.rev cur]
  | String a s' =>
      if bool_decide (a = "/"%char) then String.rev cur :: segments_go "" s'
      else segments_go (String a cur) s'
  end.

Definition segments (s : string) : list string := segments_go "" s.

Fixpoint join (l : list string) : string :=
  match l with
  | [] => ""
  | [x] => x
  | x :: rest => x +:+ "/" +:+ join rest
  end.

Fixpoint prefixes (l : list string) : list (list string) :=
  match l with
  | [] => [[]]
  | x :: rest => [] :: map (cons x) (prefixes rest)
  end.

(** Modelled from the spec: [pathsToTemplates] is declared outside
    [render.go].  Section 4.1: the path with its last segment stripped
    progressively, leaf first, ending with the empty root entry. *)
Definition chain (path : string) : list string :=
  map join (reverse (prefixes (segments path))).

(** Modelled from the spec: [renderAt] is declared outside [render.go].
    Section 6: look the template up in the given registry, fail with
    NotFound when it is absent, else execute it against the bag. *)
Definition exec (pt : string) (data : option (gmap string (value string)))
    (r : gmap string tmpl) : Bytes * option err :=
  match r !! pt with
  | None => (None, Some NotFound)
  | Some t => t (default ∅ data)
  end.

Fixpoint trim_left (s : string) : string :=
  match s with
  | EmptyString => ""
  | String a s' => if Ascii.is_space a then trim_left s' else s
  end.

(** [strings.TrimSpace] on ASCII text. *)
Definition trim (s : string) : string :=
  String.rev (trim_left (String.rev (trim_left s))).

Definition world (rdy : bool) (pages standalone : gmap string tmpl)
    (uf : Bytes) (codePath : gmap Z string) : World :=
  {| error := err;
     any := string;
     registry := gmap string tmpl;
     Pages := pages;
     Standalone := standalone;
     Lookup := found;
     ready := rdy;
     UltimateFailure := uf;
     err404 := NotFound;
     err500ISE := "500 Internal Server Error";
     ErrorCode := code;
     ErrorPath := errorPath codePath;
     parsePath := parse;
     pathsToTemplates := chain;
     renderAt := exec;
     TrimSpace := trim |}.

(** Templates. *)
Definition static (s : string) : tmpl := fun _ => (Some s, None).
Definition failing (e : err) : tmpl := fun _ => (None, Some e).
Definition layout (pre post : string) : tmpl :=
  fun m => (Some (pre +:+ html_of (m !! "content") +:+ post), None).

(** A root layout that breaks on one particular content. *)
Definition fragile (bad : string) (e : err) (pre post : string) : tmpl :=
  fun m =>
    if bool_decide (html_of (m !! "content") = bad) then (None, Some e)
    else (Some (pre +:+ html_of (m !! "content") +:+ post), None).

(** A site with a home page and a page for 500, but none for 404. *)
Definition site : gmap string tmpl :=
  {[ "" := layout "<html>" "</html>";
     "index" := static " Welcome ";
     "500" := static "Server error" ]}.

(** Error pages that fail in turn: 404 with a 403, 403 with a 401, and the
    pages of 401 and 500 with unclassified failures. *)
Definition ladder : gmap string tmpl :=
  {[ "" := layout "<html>" "</html>";
     "404" := failing (Status 403);
     "403" := failing (Status 401);
     "401" := failing (Failure "boom");
     "500" := failing (Failure "bang") ]}.

(** A 404 page that renders blank. *)
Definition blank : gmap string tmpl :=
  {[ "" := layout "" "";
     "404" := static "  " ]}.

(** A page whose own template shows the "content" entry. *)
Definition echo : gmap string tmpl :=
  {[ "" := layout "<" ">";
     "p" := layout "x" "" ]}.

(** A page whose root layout breaks once the page has rendered, with a 500
    page that shows the "content" entry. *)
Definition broken : gmap string tmpl :=
  {[ "" := fragile "partial" (Failure "layout") "<" ">";
     "p" := static "partial";
     "500" := layout "[" "]" ]}.

(** Standalone templates. *)
Definition widgets : gmap string tmpl :=
  {[ "$nav" := static "<nav/>" ]}.

(** The site with a page for 404 as well. *)
Definition full : gmap string tmpl := <["404" := static "Not found"]> site.

Definition W_full : World := world true full widgets None ∅.

(** A site with a page for 404 but none for 500. *)
Definition modest : gmap string tmpl :=
  {[ "" := layout "<html>" "</html>";
     "index" := static " Welcome ";
     "404" := static "Not found" ]}.

(** The site in a world whose [pathsToTemplates] gives an empty chain. *)
Definition W_chainless : World :=
  {| error := err;
     any := string;
     registry := gmap string tmpl;
     Pages := site;
     Standalone := widgets;
     Lookup := found;
     ready := true;
     UltimateFailure := None;
     err404 := NotFound;
     err500ISE := "500 Internal Server Error";
     ErrorCode := code;
     ErrorPath := errorPath ∅;
     parsePath := parse;
     pathsToTemplates := fun _ => [];
     renderAt := exec;
     TrimSpace := trim |}.
Definition W_site : World := world true site widgets None ∅.
Definition W_unready : World := world false site widgets None ∅.
Definition W_ladder : World := world true ladder ∅ None ∅.
Definition W_modest : World := world true modest widgets None ∅.
Definition W_blank : World := world true blank ∅ None ∅.
Definition W_echo : World := world true echo ∅ None ∅.
Definition W_broken : World := world true broken ∅ (Some "down") ∅.

(** The state before a request: no maps, nothing traced. *)
Definition s0 {any : Type} : state_of any := mkState ∅ [].

(** A state with one bag, at reference [0]. *)
Definition s1 {any : Type} (m : gmap string (value any)) : state_of any :=
  mkState {[ 0%nat := m ]} [].

End Sample.

(** * Facts about the render functions *)
Section Facts.

Context `{W : World}.

(** ** The composition loop *)

Lemma state_eta (s : state) : mkState (heap s) (trace s) = s.
Proof. by destruct s. Qed.

Lemma run_eq {A B : Type} (p : A * B) (a : A) : fst p = a -> p = (a, snd p).
Proof. intros <-. by destruct p. Qed.

Lemma composed_nil_eq (m m' : Bag) : m = m' -> composed [] m m'.
Proof. intros <-. constructor. Qed.

Lemma composed_app (l1 l2 : list string) (m m1 m' : Bag) :
  composed l1 m m1 -> composed l2 m1 m' -> composed (l1 ++ l2) m m'.
Proof.
  induction 1 as [|pt rest m m1 bytes Hr _ IH]; simpl; [done|].
  intros H2. eapply composed_cons; eauto.
Qed.

Lemma composed_app_inv (l1 l2 : list string) (m m' : Bag) :
  composed (l1 ++ l2) m m' ->
  exists m1, composed l1 m m1 /\ composed l2 m1 m'.
Proof.
  revert m. induction l1 as [|pt l1 IH]; simpl; intros m H.
  - exists m. split; [constructor | done].
  - inversion H as [|? ? ? ? bytes Hr Hc]; subst.
    destruct (IH _ Hc) as (m1 & H1 & H2).
    exists m1. split; [econstructor; eauto | done].
Qed.

Lemma composed_det (l : list string) (m m1 m2 : Bag) :
  composed l m m1 -> composed l m m2 -> m1 = m2.
Proof.
  induction 1 as [|pt rest m m1 bytes Hr _ IH]; inversion 1; subst; [done|].
  apply IH. congruence.
Qed.

(** Either the whole chain composes, or there is a first template that
    fails. *)
Lemma composed_or_fails (l : list string) (m : Bag) :
  (exists m', composed l m m') \/
  (exists l1 pt l2 m1 b e,
      l = l1 ++ pt :: l2 /\ composed l1 m m1 /\
      renderAt pt (Some m1) Pages = (b, Some e)).
Proof.
  revert m. induction l as [|pt l IH]; intros m.
  - left. exists m. constructor.
  - destruct (renderAt pt (Some m) Pages) as [b [e|]] eqn:Hr.
    + right. exists [], pt, l, m, b, e. repeat split; [constructor | done].
    + destruct (IH (<["content" := HTML (TrimSpace (string_of b))]> m))
        as [(m' & Hc) | (l1 & pt' & l2 & m1 & b' & e & -> & Hc & Hf)].
      * left. exists m'. econstructor; eauto.
      * right. exists (pt :: l1), pt', l2, m1, b', e.
        repeat split; [econstructor; eauto | done].
Qed.

Lemma RenderPage_loop_composed (l : list string) (m m' : Bag) (d : loc) (s : state) :
  composed l m m' ->
  heap s !! d = Some m ->
  RenderPage_loop l d s =
    (Done None, mkState (<[d := m']> (heap s)) (trace s ++ map (EvExec InPages) l)).
Proof.
  intros Hc. revert s.
  induction Hc as [|pt rest m m' bytes Hr _ IH]; intros s Hd; simpl.
  - unfold ret. rewrite (insert_id _ _ _ Hd), app_nil_r. by rewrite state_eta.
  - unfold bind, load, emit, store; simpl. rewrite Hd; simpl. rewrite Hr; simpl.
    rewrite ?Hd; simpl.
    rewrite IH; simpl; [|by rewrite lookup_insert_eq].
    by rewrite insert_insert_eq, <- app_assoc.
Qed.

Lemma RenderPage_loop_fails (l1 l2 : list string) (pt : string) (m m1 : Bag)
    (b : Bytes) (e : error) (d : loc) (s : state) :
  composed l1 m m1 ->
  renderAt pt (Some m1) Pages = (b, Some e) ->
  heap s !! d = Some m ->
  RenderPage_loop (l1 ++ pt :: l2) d s =
    (Done (Some e),
     mkState (<[d := m1]> (heap s)) (trace s ++ map (EvExec InPages) (l1 ++ [pt]))).
Proof.
  intros Hc Hf. revert s.
  induction Hc as [|pt' rest m m' bytes Hr _ IH]; intros s Hd; simpl.
  - unfold bind, load, emit; simpl. rewrite Hd; simpl. rewrite Hf; simpl.
    unfold ret. by rewrite (insert_id _ _ _ Hd).
  - unfold bind, load, emit, store; simpl. rewrite Hd; simpl. rewrite Hr; simpl.
    rewrite ?Hd; simpl.
    rewrite IH; simpl; [|by (try done; rewrite lookup_insert_eq)..].
    by rewrite insert_insert_eq, <- app_assoc.
Qed.

(** ** RenderPage *)

Lemma RenderPage_not_ready (path : string) (data : option loc) (s : state) :
  ready = false -> RenderPage path data s = (Panic, s).
Proof. intros H. unfold RenderPage, bind, assertReady. by rewrite H. Qed.

Lemma live_start_bag (data : option loc) (s : state) :
  live data s -> <[cell data s := start_bag data s]> (heap s) !! cell data s = Some (start_bag data s).
Proof. intros _. by rewrite lookup_insert_eq. Qed.

(** Entering [RenderPage]: past the readiness check, with the bag in place. *)
Lemma RenderPage_enter (path : string) (data : option loc) (s : state) :
  ready = true ->
  live data s ->
  RenderPage path data s =
    (let '(path', err) := parsePath path Pages in
     match err with
     | Some e => ret (None, Some e)
     | None =>
         bind (RenderPage_loop (pathsToTemplates path') (cell data s))
           (fun r =>
              match r with
              | Some e => ret (None, Some e)
              | None =>
                  bind (load (cell data s))
                    (fun m => ret (Some (html_of (m !! "content")), None))
              end)
     end)
      (mkState (<[cell data s := start_bag data s]> (heap s))
               (trace s ++ [EvPage path])).
Proof.
  intros Hr Hl. unfold RenderPage, assertReady. rewrite Hr.
  unfold bind at 1; simpl. unfold bind at 1; simpl.
  destruct data as [l|]; simpl.
  - destruct Hl as [m Hm]. unfold bind at 1; simpl.
    rewrite Hm; simpl. by rewrite (insert_id _ _ _ Hm).
  - unfold bind at 1; simpl. done.
Qed.

Lemma RenderPage_parse_fails (path p : string) (e : error) (data : option loc) (s : state) :
  ready = true ->
  live data s ->
  parsePath path Pages = (p, Some e) ->
  RenderPage path data s =
    (Done (None, Some e),
     mkState (<[cell data s := start_bag data s]> (heap s)) (trace s ++ [EvPage path])).
Proof. intros Hr Hl Hp. rewrite RenderPage_enter by done. by rewrite Hp. Qed.

Lemma RenderPage_composes (path p : string) (m' : Bag) (data : option loc) (s : state) :
  ready = true ->
  live data s ->
  parsePath path Pages = (p, None) ->
  composed (pathsToTemplates p) (start_bag data s) m' ->
  RenderPage path data s =
    (Done (Some (html_of (m' !! "content")), None),
     mkState (<[cell data s := m']> (heap s))
             (trace s ++ EvPage path :: map (EvExec InPages) (pathsToTemplates p))).
Proof.
  intros Hr Hl Hp Hc. rewrite RenderPage_enter by done. rewrite Hp.
  unfold bind at 1.
  erewrite RenderPage_loop_composed; [|done|by (simpl; rewrite lookup_insert_eq)]; simpl.
  unfold bind, load, ret; simpl. rewrite lookup_insert_eq; simpl.
  by rewrite insert_insert_eq, <- app_assoc.
Qed.

Lemma RenderPage_exec_fails (path p pt : string) (l1 l2 : list string) (m1 : Bag)
    (b : Bytes) (e : error) (data : option loc) (s : state) :
  ready = true ->
  live data s ->
  parsePath path Pages = (p, None) ->
  pathsToTemplates p = l1 ++ pt :: l2 ->
  composed l1 (start_bag data s) m1 ->
  renderAt pt (Some m1) Pages = (b, Some e) ->
  RenderPage path data s =
    (Done (None, Some e),
     mkState (<[cell data s := m1]> (heap s))
             (trace s ++ EvPage path :: map (EvExec InPages) (l1 ++ [pt]))).
Proof.
  intros Hr Hl Hp Hch Hc Hf. rewrite RenderPage_enter by done. rewrite Hp, Hch.
  unfold bind at 1.
  erewrite RenderPage_loop_fails; [|done|done|by (simpl; rewrite lookup_insert_eq)]; simpl.
  unfold ret. by rewrite insert_insert_eq, <- app_assoc.
Qed.


(** What any call of [RenderPage] does once the package is ready. *)
Lemma RenderPage_cases (path : string) (data : option loc) (s : state) :
  ready = true ->
  live data s ->
  (exists p e,
      parsePath path Pages = (p, Some e) /\
      RenderPage path data s =
        (Done (None, Some e),
         mkState (<[cell data s := start_bag data s]> (heap s))
                 (trace s ++ [EvPage path]))) \/
  (exists p l1 pt l2 m1 b e,
      parsePath path Pages = (p, None) /\
      pathsToTemplates p = l1 ++ pt :: l2 /\
      composed l1 (start_bag data s) m1 /\
      renderAt pt (Some m1) Pages = (b, Some e) /\
      RenderPage path data s =
        (Done (None, Some e),
         mkState (<[cell data s := m1]> (heap s))
                 (trace s ++ EvPage path :: map (EvExec InPages) (l1 ++ [pt])))) \/
  (exists p m',
      parsePath path Pages = (p, None) /\
      composed (pathsToTemplates p) (start_bag data s) m' /\
      RenderPage path data s =
        (Done (Some (html_of (m' !! "content")), None),
         mkState (<[cell data s := m']> (heap s))
                 (trace s ++ EvPage path :: map (EvExec InPages) (pathsToTemplates p)))).
Proof.
  intros Hr Hl. destruct (parsePath path Pages) as [p [e|]] eqn:Hp.
  - left. exists p, e. split; [done|]. by eapply RenderPage_parse_fails.
  - right.
    destruct (composed_or_fails (pathsToTemplates p) (start_bag data s))
      as [(m' & Hc) | (l1 & pt & l2 & m1 & b & e & Hch & Hc & Hf)].
    + right. exists p, m'. repeat split; [done|]. by eapply RenderPage_composes.
    + left. exists p, l1, pt, l2, m1, b, e. repeat split; try done.
      by eapply RenderPage_exec_fails.
Qed.

(** A successful call, read backwards. *)
Lemma RenderPage_success_inv (path : string) (data : option loc) (s s' : state)
    (out : Bytes) :
  ready = true ->
  live data s ->
  RenderPage path data s = (Done (out, None), s') ->
  exists p m',
    parsePath path Pages = (p, None) /\
    composed (pathsToTemplates p) (start_bag data s) m' /\
    out = Some (html_of (m' !! "content")) /\
    s' = mkState (<[cell data s := m']> (heap s))
           (trace s ++ EvPage path :: map (EvExec InPages) (pathsToTemplates p)).
Proof.
  intros Hr Hl H.
  destruct (RenderPage_cases path data s Hr Hl)
    as [(p & e & _ & E) | [(p & l1 & pt & l2 & m1 & b & e & _ & _ & _ & _ & E)
                          | (p & m' & Hp & Hc & E)]];
    rewrite E in H; simplify_eq.
  by exists p, m'.
Qed.

Lemma attempts_app (t1 t2 : list event) :
  attempts (t1 ++ t2) = (attempts t1 + attempts t2)%nat.
Proof. unfold attempts. by rewrite List.filter_app, length_app. Qed.

Lemma attempts_exec (r : which) (l : list string) : attempts (map (EvExec r) l) = 0%nat.
Proof. induction l; simpl; auto. Qed.

Lemma attempts_log (t : list event) (msg : string) :
  attempts (t ++ [EvLog msg]) = attempts t.
Proof. rewrite attempts_app. unfold attempts at 2. simpl. lia. Qed.

(** Once ready, [RenderPage] returns: bytes without an error or an error
    without bytes.  It counts as one attempt and leaves the caller's
    reference live. *)
Lemma RenderPage_returns (path : string) (data : option loc) (s : state) :
  ready = true ->
  live data s ->
  exists r s',
    RenderPage path data s = (Done r, s') /\
    live data s' /\
    attempts (trace s') = S (attempts (trace s)) /\
    ((exists out, r = (Some out, None)) \/ (exists e, r = (None, Some e))).
Proof.
  intros Hr Hl.
  assert (Hlive : forall m, live data (mkState (<[cell data s := m]> (heap s)) [])).
  { intros m. destruct data as [l|]; simpl; [|done]. rewrite lookup_insert_eq. eauto. }
  assert (Hatt : forall p l, attempts (trace s ++ EvPage p :: map (EvExec InPages) l)
                             = S (attempts (trace s))).
  { intros p l. rewrite attempts_app. unfold attempts at 2. simpl.
    fold (attempts (map (EvExec InPages) l)). rewrite attempts_exec. lia. }
  destruct (RenderPage_cases path data s Hr Hl)
    as [(p & e & _ & E) | [(p & l1 & pt & l2 & m1 & b & e & _ & _ & _ & _ & E)
                          | (p & m' & Hp & Hc & E)]];
    rewrite E; eexists _, _; (split; [reflexivity|]); (split; [apply Hlive|]).
  - split; [apply (Hatt path [])|]. right. by eexists.
  - split; [apply Hatt|]. right. by eexists.
  - split; [apply Hatt|]. left. by eexists.
Qed.

(** ** The composition loop, one template at a time *)

(** Once the templates before [pt] and [pt] itself have rendered, the loop
    goes on with the rest of the chain from the state in which "content"
    holds the trimmed output of [pt]. *)
Lemma RenderPage_loop_step (l1 l2 : list string) (pt : string) (m m1 : Bag)
    (b : Bytes) (d : loc) (s : state) :
  composed l1 m m1 ->
  renderAt pt (Some m1) Pages = (b, None) ->
  heap s !! d = Some m ->
  RenderPage_loop (l1 ++ pt :: l2) d s =
    RenderPage_loop l2 d
      (mkState (<[d := <["content" := HTML (TrimSpace (string_of b))]> m1]> (heap s))
               (trace s ++ map (EvExec InPages) (l1 ++ [pt]))).
Proof.
  intros Hc Hb. revert s.
  induction Hc as [|pt' rest m m' bytes Hr _ IH]; intros s Hd; simpl.
  - unfold bind, load, emit, store; simpl. rewrite Hd; simpl. rewrite Hb; simpl.
    by rewrite ?Hd.
  - unfold bind, load, emit, store; simpl. rewrite Hd; simpl. rewrite Hr; simpl.
    rewrite ?Hd; simpl.
    rewrite IH; simpl; [|by (try done; rewrite lookup_insert_eq)..].
    by rewrite insert_insert_eq, <- app_assoc.
Qed.

(** C5.  [RenderPage] threads the content through the bag.  When the
    templates of the chain execute without error: after each template the
    loop continues from the state in which the bag's "content" key holds
    that template's output, trimmed and marked as [template.HTML]; and the
    call returns, without error, the bytes read back from the "content" key
    of the bag as the last template left it, which is also the state of the
    bag after the call.  Conversely every successful call is of this kind. *)
Theorem RenderPage_threads_content (path : string) (data : option loc) (s : state) :
  ready = true ->
  live data s ->
  (forall (l1 l2 : list string) (pt : string) (m m1 : Bag) (b : Bytes)
          (d : loc) (s0 : state),
      composed l1 m m1 ->
      renderAt pt (Some m1) Pages = (b, None) ->
      heap s0 !! d = Some m ->
      RenderPage_loop (l1 ++ pt :: l2) d s0 =
        RenderPage_loop l2 d
          (mkState
             (<[d := <["content" := HTML (TrimSpace (string_of b))]> m1]> (heap s0))
             (trace s0 ++ map (EvExec InPages) (l1 ++ [pt])))) /\
  (forall (p : string) (m' : Bag),
      parsePath path Pages = (p, None) ->
      composed (pathsToTemplates p) (start_bag data s) m' ->
      RenderPage path data s =
        (Done (Some (html_of (m' !! "content")), None),
         mkState (<[cell data s := m']> (heap s))
                 (trace s ++ EvPage path :: map (EvExec InPages) (pathsToTemplates p)))) /\
  (forall (out : Bytes) (s' : state),
      RenderPage path data s = (Done (out, None), s') ->
      exists p m',
        parsePath path Pages = (p, None) /\
        composed (pathsToTemplates p) (start_bag data s) m' /\
        heap s' !! cell data s = Some m' /\
        out = Some (html_of (m' !! "content"))).
Proof.
  intros Hr Hl. split; [|split].
  - intros l1 l2 pt m m1 b d s0. apply RenderPage_loop_step.
  - intros p m' Hp Hc. by apply (RenderPage_composes path p).
  - intros out s' H.
    destruct (RenderPage_success_inv _ _ _ _ _ Hr Hl H) as (p & m' & Hp & Hc & -> & ->).
    exists p, m'. repeat split; try done. simpl. by rewrite lookup_insert_eq.
Qed.

(** C6.  When the executor fails on a template of the chain after the
    templates before it succeeded, [RenderPage] returns nil bytes and that
    failure as it is.  The trace ends with the failing template: none of the
    templates after it is executed, and the bag stays as the failing
    template saw it. *)
Theorem RenderPage_aborts_at_first_failure (path p pt : string)
    (l1 l2 : list string) (m1 : Bag) (b : Bytes) (e : error)
    (data : option loc) (s : state) :
  ready = true ->
  live data s ->
  parsePath path Pages = (p, None) ->
  pathsToTemplates p = l1 ++ pt :: l2 ->
  composed l1 (start_bag data s) m1 ->
  renderAt pt (Some m1) Pages = (b, Some e) ->
  RenderPage path data s =
    (Done (None, Some e),
     mkState (<[cell data s := m1]> (heap s))
             (trace s ++ EvPage path :: map (EvExec InPages) (l1 ++ [pt]))).
Proof. apply RenderPage_exec_fails. Qed.

(** ** RenderStandalone *)

(** C8.  A path absent from the standalone registry fails with [err404]
    and executes nothing; a path present in it is handed to the executor
    with the standalone registry, and the executor's bytes and error are
    returned as they are.  No page is attempted and no template of the page
    registry is executed.  When the executor does not report a registered
    template as not found, the call fails with [err404] exactly when the
    path is absent. *)
Theorem RenderStandalone_lookup (path : string) (data : option loc) (s : state) :
  ready = true ->
  (Lookup Standalone path = false ->
   RenderStandalone path data s = (Done (None, Some err404), s)) /\
  (Lookup Standalone path = true ->
   RenderStandalone path data s =
     (Done (renderAt path (view data s) Standalone),
      mkState (heap s) (trace s ++ [EvExec InStandalone path]))) /\
  (exists r s',
      RenderStandalone path data s = (Done r, s') /\
      heap s' = heap s /\
      (forall e, e ∈ trace s' -> e ∈ trace s \/ e = EvExec InStandalone path) /\
      ((forall m, Lookup Standalone path = true ->
                  snd (renderAt path m Standalone) <> Some err404) ->
       (snd r = Some err404 <-> Lookup Standalone path = false))).
Proof.
  intros Hr.
  assert (Hno : Lookup Standalone path = false ->
                RenderStandalone path data s = (Done (None, Some err404), s)).
  { intros Hl. unfold RenderStandalone, bind, assertReady. by rewrite Hr, Hl. }
  assert (Hyes : Lookup Standalone path = true ->
                 RenderStandalone path data s =
                   (Done (renderAt path (view data s) Standalone),
                    mkState (heap s) (trace s ++ [EvExec InStandalone path]))).
  { intros Hl. unfold RenderStandalone, bind, assertReady. rewrite Hr, Hl.
    by destruct data. }
  split; [done|]. split; [done|].
  destruct (Lookup Standalone path) eqn:Hl.
  - eexists _, _. split; [by apply Hyes|]. split; [done|]. split.
    + simpl. intros e He. apply elem_of_app in He as [He|He]; [by left|].
      right. by apply list_elem_of_singleton in He.
    + intros Hex. split; [|done]. intros Hs. by destruct (Hex (view data s)).
  - eexists _, _. split; [by apply Hno|]. split; [done|]. split; [by left|].
    done.
Qed.


(** ** The cascade: one pass through the loop body *)

Lemma body_break (data : option loc) (e : error) (v : locals) (s : state) :
  ErrorCode e = 500 ->
  500 ∈ l_codes v ->
  RenderError_body data e v s =
    (Done (Break (mkLocals (Some e) fallback (Some e) (l_codes v))),
     mkState (heap s) (trace s ++ [EvLog "internal rendering error"])).
Proof.
  intros Hc Hin. unfold RenderError_body. rewrite Hc.
  rewrite bool_decide_eq_true_2 by done. by rewrite bool_decide_eq_true_2.
Qed.

Lemma body_first_seen (data : option loc) (e : error) (v : locals) (s : state) :
  ErrorCode e ∉ l_codes v ->
  RenderError_body data e v s =
    bind (RenderPage (ErrorPath e) data)
      (fun r => ret (Next (mkLocals (snd r) (fst r) (Some e)
                             ({[ErrorCode e]} ∪ l_codes v)))) s.
Proof.
  intros Hin. unfold RenderError_body. by rewrite bool_decide_eq_false_2.
Qed.

Lemma body_escalates (data : option loc) (e : error) (v : locals) (s : state) :
  ErrorCode e ∈ l_codes v ->
  ErrorCode e <> 500 ->
  RenderError_body data e v s =
    bind (RenderPage (ErrorPath e) data)
      (fun r => ret (Next (mkLocals (snd r) (fst r) (Some e)
                             ({[500]} ∪ l_codes v)))) s.
Proof.
  intros Hin Hne. unfold RenderError_body. rewrite bool_decide_eq_true_2 by done.
  by rewrite bool_decide_eq_false_2.
Qed.

(** A pass that goes on to the next one only adds to [codes], and adds 500
    when its error was classified 500. *)
Lemma body_next_codes (data : option loc) (e : error) (v v1 : locals) (s s1 : state) :
  RenderError_body data e v s = (Done (Next v1), s1) ->
  l_codes v ⊆ l_codes v1 /\ (ErrorCode e = 500 -> 500 ∈ l_codes v1).
Proof.
  unfold RenderError_body. intros H.
  repeat case_bool_decide; unfold bind, log, emit, ret in H; simpl in H;
    try (destruct (RenderPage _ _ _) as [[r| |] s2]); simplify_eq; simpl;
    split; set_solver.
Qed.

Lemma passes_codes (data : option loc) (x y : locals * state) :
  passes data x y -> l_codes (fst x) ⊆ l_codes (fst y).
Proof.
  induction 1 as [|v v1 s s1 e x _ Hb _ IH]; simpl in *; [done|].
  destruct (body_next_codes _ _ _ _ _ _ Hb). set_solver.
Qed.

Lemma loop_no_error (fuel : nat) (data : option loc) (v : locals) (s : state) :
  l_err v = None -> RenderError_loop fuel data v s = (Done v, s).
Proof. intros H. destruct fuel; simpl; by rewrite H. Qed.

Lemma loop_break (fuel : nat) (data : option loc) (e : error) (v : locals) (s : state) :
  l_err v = Some e ->
  ErrorCode e = 500 ->
  500 ∈ l_codes v ->
  RenderError_loop (S fuel) data v s =
    (Done (mkLocals (Some e) fallback (Some e) (l_codes v)),
     mkState (heap s) (trace s ++ [EvLog "internal rendering error"])).
Proof.
  intros He Hc Hin. simpl. rewrite He. unfold bind at 1.
  by rewrite body_break.
Qed.

(** C4.  At the head of the loop with an error classified 500 while 500 is
    already in [codes], the cascade ends in that very pass: nothing is
    rendered, the double failure is logged, and [RenderError] returns the
    configured [UltimateFailure] bytes when they are not empty, else the
    built-in message, together with the current error as [lastErr]. *)
Theorem RenderError_double_500 (fuel : nat) (data : option loc) (e : error)
    (v : locals) (s : state) :
  l_err v = Some e ->
  ErrorCode e = 500 ->
  500 ∈ l_codes v ->
  RenderError_from (S fuel) data v s =
    (Done (if bool_decide (0 < len UltimateFailure)%nat then UltimateFailure
           else Some err500ISE,
           Some e),
     mkState (heap s) (trace s ++ [EvLog "internal rendering error"])).
Proof.
  intros He Hc Hin. unfold RenderError_from, bind.
  by rewrite (loop_break _ _ e).
Qed.

Lemma fallback_not_nil : exists b, fallback = Some b.
Proof.
  unfold fallback. case_bool_decide as H; [|by eexists].
  destruct UltimateFailure as [b|]; [by eexists|].
  unfold len, string_of in H. simpl in H. lia.
Qed.

Lemma fallback_not_empty : err500ISE <> "" -> fallback <> Some "".
Proof.
  intros Hne. unfold fallback. case_bool_decide as H; [|congruence].
  intros E. rewrite E in H. unfold len, string_of in H. simpl in H. lia.
Qed.

(** ** The cascade: termination when no code comes back *)

Lemma not_elem_of_add (c x : Z) (X : gset Z) : c <> x -> c ∉ X -> c ∉ {[x]} ∪ X.
Proof.
  intros Hne Hnin Hin. apply elem_of_union in Hin as [Hin|Hin]; [|done].
  by apply elem_of_singleton in Hin.
Qed.

Lemma passes_inv (data : option loc) (v : locals) (s : state) (x : locals * state) :
  passes data (v, s) x ->
  x = (v, s) \/
  exists e v1 s1,
    l_err v = Some e /\
    RenderError_body data e v s = (Done (Next v1), s1) /\
    passes data (v1, s1) x.
Proof.
  inversion 1 as [|v0 v1 s0 s1 e y He Hb Hp]; subst; [by left|right].
  by exists e, v1, s1.
Qed.

Lemma passes_snoc (data : option loc) (x : locals * state) (v v1 : locals)
    (s s1 : state) (e : error) :
  passes data x (v, s) ->
  l_err v = Some e ->
  RenderError_body data e v s = (Done (Next v1), s1) ->
  passes data x (v1, s1).
Proof.
  intros Hp He Hb. remember (v, s) as y eqn:Hy.
  induction Hp as [x|v0 v2 s0 s2 e0 x He0 Hb0 _ IH]; subst.
  - eapply passes_step; [exact He|exact Hb|constructor].
  - eapply passes_step; [exact He0|exact Hb0|]. by apply IH.
Qed.

Lemma size_difference_add (K C : gset Z) (c : Z) :
  c ∈ K -> c ∉ C -> (size (K ∖ ({[c]} ∪ C)) < size (K ∖ C))%nat.
Proof.
  intros Hin Hnin. apply subset_size.
  split.
  - intros x Hx. apply elem_of_difference in Hx as [Hx Hn].
    apply elem_of_difference. split; [done|].
    intros Hc. apply Hn. apply elem_of_union. by right.
  - intros Hsub. assert (Hc : c ∈ K ∖ C) by (by apply elem_of_difference).
    apply Hsub in Hc. apply elem_of_difference in Hc as [_ Hn].
    apply Hn. apply elem_of_union. left. by apply elem_of_singleton.
Qed.

(** From a loop head that the cascade reaches, with [n] codes of [K] not
    yet in [codes]: the loop returns within [n + 1] passes and [n] attempts. *)
Lemma cascade_within (K : gset Z) (data : option loc) (e0 : error) (s0 : state) :
  ready = true ->
  meets_codes_once K data e0 s0 ->
  forall (n fuel : nat) (v : locals) (s : state) (e : error),
    passes data (entry (Some e0), s0) (v, s) ->
    l_err v = Some e ->
    live data s ->
    (size (K ∖ l_codes v) <= n)%nat ->
    (n + 1 <= fuel)%nat ->
    exists v' s' e',
      RenderError_loop fuel data v s = (Done v', s') /\
      ended data v' e' /\
      (attempts (trace s') <= attempts (trace s) + n)%nat.
Proof.
  intros Hr Hm.
  assert (Hbreak : forall fuel v s e,
             l_err v = Some e -> ErrorCode e ∈ l_codes v ->
             (ErrorCode e ∈ l_codes v -> ErrorCode e = 500) ->
             forall n, exists v' s' e',
               RenderError_loop (S fuel) data v s = (Done v', s') /\
               ended data v' e' /\
               (attempts (trace s') <= attempts (trace s) + n)%nat).
  { intros fuel v s e He Hin Hseen n. pose proof (Hseen Hin) as Hc.
    exists (mkLocals (Some e) fallback (Some e) (l_codes v)),
      (mkState (heap s) (trace s ++ [EvLog "internal rendering error"])), e.
    split; [apply loop_break; [done|done|by rewrite <- Hc]|].
    split; [split; [done|by left]|]. simpl. rewrite attempts_log. lia. }
  induction n as [|n IH]; intros fuel v s e Hp He Hl Hsize Hf;
    (destruct fuel as [|fuel]; [lia|]);
    destruct (Hm v s e Hp He) as [HinS Hseen];
    (destruct (decide (ErrorCode e ∈ l_codes v)) as [Hin|Hnin];
     [by apply (Hbreak fuel v s e)|]).
  - exfalso. assert (Hc : ErrorCode e ∈ K ∖ l_codes v) by (by apply elem_of_difference).
    assert (Hz : size (K ∖ l_codes v) = 0%nat) by lia.
    apply size_empty_iff in Hz. rewrite Hz in Hc. by apply not_elem_of_empty in Hc.
  - cbn [RenderError_loop]. rewrite He. unfold bind at 1.
    destruct (RenderPage_returns (ErrorPath e) data s Hr Hl)
      as (res & s1 & E & Hl1 & Ha & Hshape).
    assert (Hb : RenderError_body data e v s =
                 (Done (Next (mkLocals (snd res) (fst res) (Some e)
                                ({[ErrorCode e]} ∪ l_codes v))), s1)).
    { rewrite body_first_seen by done. unfold bind. by rewrite E. }
    rewrite Hb.
    destruct Hshape as [(out & ->) | (e1 & ->)]; cbn [snd fst] in *.
    + rewrite loop_no_error by done.
      eexists _, s1, e. split; [reflexivity|]. split; [|lia].
      split; [done|]. right. by exists out, s, s1.
    + pose proof (size_difference_add K (l_codes v) (ErrorCode e) HinS Hnin) as Hlt.
      destruct (IH fuel (mkLocals (Some e1) None (Some e) ({[ErrorCode e]} ∪ l_codes v))
                  s1 e1) as (v' & s' & e' & E' & Hend & Ha');
        [by eapply passes_snoc|done|done|simpl; lia|lia|].
      exists v', s', e'. split; [exact E'|]. split; [done|lia].
Qed.

(** Two passes whose errors are both classified 500: the later one ends the
    cascade on the fallback bytes. *)
Lemma second_500_breaks (data : option loc) (v v1 v2 : locals) (s s1 s2 : state)
    (e e2 : error) (fuel : nat) :
  ErrorCode e = 500 ->
  RenderError_body data e v s = (Done (Next v1), s1) ->
  passes data (v1, s1) (v2, s2) ->
  l_err v2 = Some e2 ->
  ErrorCode e2 = 500 ->
  RenderError_from (S fuel) data v2 s2 =
    (Done (fallback, Some e2),
     mkState (heap s2) (trace s2 ++ [EvLog "internal rendering error"])).
Proof.
  intros Hc Hb Hp He2 Hc2.
  destruct (body_next_codes _ _ _ _ _ _ Hb) as [_ H500]. specialize (H500 Hc).
  apply passes_codes in Hp. simpl in Hp.
  unfold RenderError_from, bind. rewrite (loop_break _ _ e2); [done..|set_solver].
Qed.

(** C1, as amended.  Every code seen for the first time gets a render
    attempt of its own, so the passes are bounded by the number of distinct
    codes and not by a constant: a cascade whose errors have their codes in
    a finite set [K], and which meets no code again other than 500, returns
    within [size K + 1] passes after at most [size K] render attempts.  And
    in every cascade, whatever the failures, of two passes whose errors are
    classified 500 the second is the last: it returns the fallback bytes. *)
Theorem RenderError_terminates_within_codes (K : gset Z) (fuel : nat) (e : error)
    (data : option loc) (s : state) :
  (ready = true ->
   live data s ->
   meets_codes_once K data e s ->
   (size K + 1 <= fuel)%nat ->
   exists res s',
     RenderError fuel (Some e) data s = (Done res, s') /\
     (attempts (trace s') <= attempts (trace s) + size K)%nat) /\
  (forall (v v1 v2 : locals) (sa s1 s2 : state) (ea e2 : error) (fuel' : nat),
      ErrorCode ea = 500 ->
      RenderError_body data ea v sa = (Done (Next v1), s1) ->
      passes data (v1, s1) (v2, s2) ->
      l_err v2 = Some e2 ->
      ErrorCode e2 = 500 ->
      RenderError_from (S fuel') data v2 s2 =
        (Done (fallback, Some e2),
         mkState (heap s2) (trace s2 ++ [EvLog "internal rendering error"]))).
Proof.
  split; [|intros v v1 v2 sa s1 s2 ea e2 fuel'; apply second_500_breaks].
  intros Hr Hl Hm Hf.
  destruct (cascade_within K data e s Hr Hm (size K) fuel (entry (Some e)) s e)
    as (v' & s' & e' & E & _ & Ha); [constructor|done|done| |lia|].
  { simpl. by rewrite difference_empty_L. }
  exists (l_bytes v', l_lastErr v'), s'. split; [|lia].
  unfold RenderError, RenderError_from, bind. by rewrite E.
Qed.

(** C3, as amended.  Started with a non-nil error once the package is
    ready, a cascade whose errors have their codes in a finite set [K], and
    which meets no code again other than 500, returns non-nil bytes and a
    non-nil last error: either the fallback bytes with a last error
    classified 500 (not empty when the built-in message is not), or the
    bytes of the page rendered for the last error. *)
Theorem RenderError_returns_bytes (K : gset Z) (fuel : nat) (e : error)
    (data : option loc) (s : state) :
  ready = true ->
  live data s ->
  meets_codes_once K data e s ->
  (size K + 1 <= fuel)%nat ->
  exists out e' s',
    RenderError fuel (Some e) data s = (Done (Some out, Some e'), s') /\
    ((Some out = fallback /\ ErrorCode e' = 500 /\ (err500ISE <> "" -> out <> "")) \/
     (exists s1 s2,
         RenderPage (ErrorPath e') data s1 = (Done (Some out, None), s2))).
Proof.
  intros Hr Hl Hm Hf.
  destruct (cascade_within K data e s Hr Hm (size K) fuel (entry (Some e)) s e)
    as (v' & s' & e' & E & [Hlast Hend] & _); [constructor|done|done| |lia|].
  { simpl. by rewrite difference_empty_L. }
  destruct Hend as [[Hb Hc] | (out & s1 & s2 & Hb & Hp)].
  - destruct fallback_not_nil as [out Hout].
    exists out, e', s'. split.
    + unfold RenderError, RenderError_from, bind. rewrite E. by rewrite Hb, Hlast, Hout.
    + left. repeat split; [done..|]. intros Hne ->. by apply fallback_not_empty in Hne.
  - exists out, e', s'. split.
    + unfold RenderError, RenderError_from, bind. rewrite E. by rewrite Hb, Hlast.
    + right. by exists s1, s2.
Qed.

(** ** Rendering the same page again *)

Lemma composed_content (l : list string) (m m' : Bag) :
  composed l m m' -> m' = m \/ exists v, m' = <["content" := v]> m.
Proof.
  induction 1 as [|pt rest m m' bytes _ _ [-> | [v ->]]]; [by left|right..].
  - by eexists.
  - exists v. by rewrite insert_insert_eq.
Qed.

Lemma composed_ignoring (l : list string) (m m' : Bag) (v : value any) :
  (forall pt rest m0 v0,
      l = pt :: rest ->
      renderAt pt (Some (<["content" := v0]> m0)) Pages = renderAt pt (Some m0) Pages) ->
  composed l m m' ->
  l <> [] ->
  composed l (<["content" := v]> m) m'.
Proof.
  intros Hig Hc Hne. destruct Hc as [|pt rest m m' bytes Hr Hc]; [done|].
  econstructor.
  - rewrite (Hig pt rest) by done. exact Hr.
  - by rewrite insert_insert_eq.
Qed.

(** The result of [RenderPage] depends on the state only through the
    contents of the bag. *)
Lemma RenderPage_result_by_bag (path : string) (data data2 : option loc)
    (s s2 : state) :
  ready = true ->
  live data s ->
  live data2 s2 ->
  start_bag data2 s2 = start_bag data s ->
  fst (RenderPage path data2 s2) = fst (RenderPage path data s).
Proof.
  intros Hr Hl Hl2 Hb.
  destruct (RenderPage_cases path data s Hr Hl)
    as [(p & e & Hp & E) | [(p & l1 & pt & l2 & m1 & b & e & Hp & Hch & Hc & Hf & E)
                          | (p & m' & Hp & Hc & E)]]; rewrite E; simpl.
  - by erewrite RenderPage_parse_fails.
  - rewrite <- Hb in Hc. by erewrite RenderPage_exec_fails.
  - rewrite <- Hb in Hc. by erewrite RenderPage_composes.
Qed.

(** C9, as amended.  [RenderPage] is a function of the path and of the
    contents of the bag at the time of the call: two calls on bags with
    equal contents return the same bytes.  A call leaves its output in the
    bag under "content", so calling again with the very same bag returns
    the same bytes when the leaf template of the chain does not depend on
    the "content" entry. *)
Theorem RenderPage_repeatable (path : string) (data : option loc) (s s' : state)
    (out : Bytes) :
  ready = true ->
  live data s ->
  RenderPage path data s = (Done (out, None), s') ->
  (forall data2 s2,
      live data2 s2 ->
      start_bag data2 s2 = start_bag data s ->
      exists s2', RenderPage path data2 s2 = (Done (out, None), s2')) /\
  ((forall p pt rest m v,
       parsePath path Pages = (p, None) ->
       pathsToTemplates p = pt :: rest ->
       renderAt pt (Some (<["content" := v]> m)) Pages = renderAt pt (Some m) Pages) ->
   exists s'', RenderPage path data s' = (Done (out, None), s'')).
Proof.
  intros Hr Hl H. split.
  - intros data2 s2 Hl2 Hb.
    pose proof (RenderPage_result_by_bag path data data2 s s2 Hr Hl Hl2 Hb) as E.
    rewrite H in E. simpl in E.
    destruct (RenderPage path data2 s2) as [o s2'] eqn:E2. simpl in E. subst.
    by exists s2'.
  - intros Hig.
    destruct (RenderPage_success_inv _ _ _ _ _ Hr Hl H) as (p & m' & Hp & Hc & -> & ->).
    assert (Hl' : live data (mkState (<[cell data s := m']> (heap s)) [])).
    { destruct data; simpl; [|done]. rewrite lookup_insert_eq. eauto. }
    eexists. eapply RenderPage_composes; [done|exact Hl'|done|].
    destruct data as [l|]; simpl in *; [|done].
    rewrite lookup_insert_eq; simpl.
    destruct Hl as [m0 Hm0]. rewrite Hm0 in Hc. simpl in Hc.
    destruct (pathsToTemplates p) as [|pt rest] eqn:Hch.
    + inversion Hc; subst. constructor.
    + destruct (composed_content _ _ _ Hc) as [-> | [v ->]]; [done|].
      apply composed_ignoring; [|done|done].
      intros pt0 rest0 m1 v0 [= <- <-]. by eapply Hig.
Qed.


(** ** Render *)

Lemma Render_not_ready (fuel : nat) (path : string) (data : option loc) (s : state) :
  ready = false -> Render fuel path data s = (Panic, s).
Proof. intros H. unfold Render, bind, assertReady. by rewrite H. Qed.

Lemma RenderStandalone_not_ready (path : string) (data : option loc) (s : state) :
  ready = false -> RenderStandalone path data s = (Panic, s).
Proof. intros H. unfold RenderStandalone, bind, assertReady. by rewrite H. Qed.

(** [RenderError] has no readiness check of its own: with a nil error it
    returns whether or not the package is ready. *)
Lemma RenderError_nil (fuel : nat) (data : option loc) (s : state) :
  RenderError fuel None data s = (Done (None, None), s).
Proof.
  unfold RenderError, RenderError_from, bind. by rewrite loop_no_error.
Qed.

Lemma Render_failure (fuel : nat) (path : string) (data : option loc)
    (s s1 : state) (b : Bytes) (e : error) :
  ready = true ->
  RenderPage path data s = (Done (b, Some e), s1) ->
  Render fuel path data s = RenderError fuel (Some e) data s1.
Proof.
  intros Hr H. unfold Render, assertReady. rewrite Hr.
  unfold bind at 1; simpl. unfold bind at 1. by rewrite H.
Qed.

(** C10, as amended.  With a non-nil bag: when [RenderPage] fails on a
    template after the template before it rendered, the bag keeps that
    template's trimmed output under "content"; [Render] hands the same
    reference to [RenderError], whose first pass renders the page of the
    error against the bag in that state. *)
Theorem Render_hands_over_partial_content (fuel : nat) (path p ptl pt : string)
    (l1 l2 : list string) (ma : Bag) (bl b : Bytes) (e : error)
    (l : loc) (s : state) :
  ready = true ->
  live (Some l) s ->
  parsePath path Pages = (p, None) ->
  pathsToTemplates p = l1 ++ ptl :: pt :: l2 ->
  composed l1 (start_bag (Some l) s) ma ->
  renderAt ptl (Some ma) Pages = (bl, None) ->
  renderAt pt (Some (<["content" := HTML (TrimSpace (string_of bl))]> ma)) Pages
    = (b, Some e) ->
  exists s1,
    RenderPage path (Some l) s = (Done (None, Some e), s1) /\
    heap s1 !! l = Some (<["content" := HTML (TrimSpace (string_of bl))]> ma) /\
    start_bag (Some l) s1 !! "content" = Some (HTML (TrimSpace (string_of bl))) /\
    Render fuel path (Some l) s = RenderError fuel (Some e) (Some l) s1 /\
    RenderError_body (Some l) e (entry (Some e)) s1 =
      bind (RenderPage (ErrorPath e) (Some l))
        (fun r => ret (Next (mkLocals (snd r) (fst r) (Some e)
                               ({[ErrorCode e]} ∪ ∅)))) s1.
Proof.
  intros Hr Hl Hp Hch Hc Hbl Hf.
  assert (Hc' : composed (l1 ++ [ptl]) (start_bag (Some l) s)
                  (<["content" := HTML (TrimSpace (string_of bl))]> ma)).
  { eapply composed_app; [exact Hc|]. econstructor; [exact Hbl|constructor]. }
  assert (Hch' : pathsToTemplates p = (l1 ++ [ptl]) ++ pt :: l2)
    by (by rewrite <- app_assoc).
  pose proof (RenderPage_exec_fails path p pt _ _ _ b e (Some l) s Hr Hl Hp Hch' Hc' Hf)
    as E.
  eexists. split; [exact E|]. simpl. rewrite !lookup_insert_eq. simpl.
  rewrite lookup_insert_eq. split; [done|]. split; [done|]. split.
  - by apply (Render_failure _ _ _ _ _ None).
  - by apply body_first_seen.
Qed.

End Facts.

(** * The render functions on concrete worlds *)
Module Runs.

Import Sample.

(** ** The ladder of failing error pages *)

(** C1, counterexample.  On the ladder the cascade started with a NotFound
    makes four render attempts for four distinct codes: three passes, and
    four, are not enough, and the fifth pass is the double 500. *)
Lemma cascade_exceeds_constant_bound :
  fst (RenderError (W := W_ladder) 3 (Some NotFound) None s0) = OutOfFuel /\
  fst (RenderError (W := W_ladder) 4 (Some NotFound) None s0) = OutOfFuel /\
  fst (RenderError (W := W_ladder) 5 (Some NotFound) None s0)
    = Done (Some "500 Internal Server Error", Some (Failure "bang")) /\
  attempts (trace (snd (RenderError (W := W_ladder) 5 (Some NotFound) None s0)))
    = 4%nat.
Proof. repeat split; vm_compute; reflexivity. Qed.

(** The cascade on the ladder, pass by pass. *)
Lemma ladder_meets_codes_once :
  meets_codes_once (W := W_ladder) {[ 404; 403; 401; 500 ]} None NotFound s0.
Proof.
  intros v s' e' Hp He.
  do 5 (apply passes_inv in Hp as [[= -> ->] | (e & v1 & s1 & He1 & Hb & Hp)];
        [ simpl in He; injection He as <-;
          (split; [apply (bool_decide_unpack _); vm_compute; exact I|]);
          first [ by intros _
                | intros Hin; apply (bool_decide_pack _) in Hin;
                  vm_compute in Hin; destruct Hin ]
        | simpl in He1; injection He1 as <-; vm_compute in Hb;
          first [ discriminate Hb | injection Hb as <- <- ] ]).
Qed.

(** C1, as amended, on the ladder: four codes, five passes, four attempts. *)
Lemma RenderError_terminates_within_codes_witness :
  exists res s',
    RenderError (W := W_ladder) 5 (Some NotFound) None s0 = (Done res, s') /\
    (attempts (trace s') <= 4)%nat.
Proof.
  destruct (RenderError_terminates_within_codes (W := W_ladder)
              {[ 404; 403; 401; 500 ]} 5 NotFound None s0) as [H _].
  destruct (H eq_refl I ladder_meets_codes_once) as (res & s' & E & Ha).
  - vm_compute. lia.
  - exists res, s'. split; [exact E|exact Ha].
Defined.

(** C3, counterexample.  A nil error returns nil bytes and a nil last
    error; and a 404 page that renders blank gives empty bytes. *)
Lemma RenderError_may_return_no_bytes :
  fst (RenderError (W := W_site) 1 None None s0) = Done (None, None) /\
  fst (RenderError (W := W_blank) 1 (Some NotFound) None s0)
    = Done (Some "", Some NotFound).
Proof. split; vm_compute; reflexivity. Qed.

(** The cascade on the site without a 500 page, started with an
    unclassified failure: the page of 500 is missing, the page of 404
    renders. *)
Lemma modest_meets_codes_once :
  meets_codes_once (W := W_modest) {[ 500; 404 ]} None (Failure "boom") s0.
Proof.
  intros v s' e' Hp He.
  do 2 (apply passes_inv in Hp as [[= -> ->] | (e & v1 & s1 & He1 & Hb & Hp)];
        [ simpl in He; injection He as <-;
          (split; [apply (bool_decide_unpack _); vm_compute; exact I|]);
          intros Hin; apply (bool_decide_pack _) in Hin;
          vm_compute in Hin; destruct Hin
        | simpl in He1; injection He1 as <-; vm_compute in Hb;
          injection Hb as <- <- ]).
  apply passes_inv in Hp as [[= -> ->] | (e & v1 & s1 & He1 & _)];
    [discriminate He|discriminate He1].
Qed.

(** C3, as amended, on the site without a 500 page. *)
Lemma RenderError_returns_bytes_witness :
  exists out e' s',
    RenderError (W := W_modest) 3 (Some (Failure "boom")) None s0
      = (Done (Some out, Some e'), s').
Proof.
  destruct (RenderError_returns_bytes (W := W_modest) {[ 500; 404 ]} 3
              (Failure "boom") None s0 eq_refl I modest_meets_codes_once)
    as (out & e' & s' & E & _).
  - vm_compute. lia.
  - exists out, e', s'. exact E.
Defined.

(** ** A site without a 404 page *)

Lemma site_404_fails (data : option loc) (s : state_of (@any W_site)) :
  live data s ->
  RenderPage (W := W_site) "404" data s =
    (Done (None, Some NotFound),
     mkState (<[cell data s := start_bag data s]> (heap s)) (trace s ++ [EvPage "404"])).
Proof.
  intros Hl. by apply (RenderPage_parse_fails (W := W_site) "404" "" NotFound).
Qed.

Lemma site_404_again (fuel : nat) :
  forall (v : locals_of (@error W_site)) (s : state_of (@any W_site)),
    l_err v = Some NotFound ->
    404 ∈ l_codes v ->
    exists s',
      RenderError_loop (W := W_site) fuel None v s = (OutOfFuel, s') /\
      trace s' = trace s ++ repeat (EvPage "404") fuel.
Proof.
  induction fuel as [|fuel IH]; intros v s He Hin; cbn [RenderError_loop]; rewrite He.
  - exists s. split; [done|]. simpl. by rewrite app_nil_r.
  - unfold bind at 1.
    rewrite (body_escalates (W := W_site)) by done.
    unfold bind at 1. change (@ErrorPath W_site NotFound) with "404".
    rewrite site_404_fails by done. cbn [ret snd fst].
    edestruct (IH (@mkLocals (@error W_site) (Some NotFound) None (Some NotFound)
                     ({[500]} ∪ l_codes v)))
      as (s' & E & Ht); [done|set_solver|].
    exists s'. split; [exact E|]. rewrite Ht. simpl. by rewrite <- app_assoc.
Qed.

(** C2, at the failing input.  The site has a page for 500 but none for
    404, and the cascade starts with a NotFound.  The second pass finds 404
    in [codes] and marks 500, yet it renders [ErrorPath(err)], the page of
    the repeated code: every attempt is for "404", the page of 500 is never
    tried, and no amount of fuel lets the call return. *)
Theorem RenderError_repeats_404 (fuel : nat) :
  exists s',
    RenderError (W := W_site) fuel (Some NotFound) None s0 = (OutOfFuel, s') /\
    trace s' = repeat (EvPage "404") fuel.
Proof.
  unfold RenderError, RenderError_from. unfold bind at 1.
  destruct fuel as [|fuel]; [by exists s0|].
  cbn [RenderError_loop entry l_err]. unfold bind at 1.
  rewrite (body_first_seen (W := W_site)) by set_solver.
  unfold bind at 1. change (@ErrorPath W_site NotFound) with "404".
  rewrite site_404_fails by done. cbn [ret snd fst].
  edestruct (site_404_again fuel) as (s' & E & Ht); [| |rewrite E]; [done|set_solver|].
  exists s'. split; [done|]. by rewrite Ht.
Qed.

(** C4, on a world with [UltimateFailure] set. *)
Lemma RenderError_double_500_witness :
  RenderError_from (W := W_broken) 1 None
    (@mkLocals (@error W_broken) (Some (Failure "again")) None (Some (Failure "layout"))
       {[500]}) s0
  = (Done (Some "down", Some (Failure "again")),
     mkState ∅ [EvLog "internal rendering error"]).
Proof.
  apply (RenderError_double_500 (W := W_broken) 0 None (Failure "again")).
  - reflexivity.
  - reflexivity.
  - apply elem_of_singleton. reflexivity.
Defined.

(** C7, at the failing input.  Before setup, [Render], [RenderPage] and
    [RenderStandalone] panic at once, and [RenderError] called with a nil
    error returns normally. *)
Theorem RenderError_unguarded :
  Render (W := W_unready) 1 "index" None s0 = (Panic, s0) /\
  RenderPage (W := W_unready) "index" None s0 = (Panic, s0) /\
  RenderStandalone (W := W_unready) "$nav" None s0 = (Panic, s0) /\
  RenderError (W := W_unready) 1 None None s0 = (Done (None, None), s0).
Proof.
  split; [by apply (Render_not_ready (W := W_unready))|].
  split; [by apply (RenderPage_not_ready (W := W_unready))|].
  split; [by apply (RenderStandalone_not_ready (W := W_unready))|].
  apply (RenderError_nil (W := W_unready)).
Qed.


(** ** Pages *)

(** C5, on the home page of the site, rendered into a bag at reference 0. *)
Lemma RenderPage_threads_content_witness :
  RenderPage (W := W_site) "index" (Some 0%nat) (s1 ∅) =
    (Done (Some "<html>Welcome</html>", None),
     mkState {[ 0%nat := {[ "content" := HTML "<html>Welcome</html>" ]} ]}
             [EvPage "index"; EvExec InPages "index"; EvExec InPages ""]) /\
  RenderPage_loop (W := W_site) ["index"; ""] 0%nat (s1 ∅) =
    RenderPage_loop (W := W_site) [""] 0%nat
      (mkState {[ 0%nat := {[ "content" := HTML "Welcome" ]} ]}
               [EvExec InPages "index"]).
Proof.
  assert (Hl : live (Some 0%nat) (@s1 (@any W_site) ∅)).
  { eexists. vm_compute. reflexivity. }
  destruct (RenderPage_threads_content (W := W_site) "index" (Some 0%nat) (s1 ∅)
              eq_refl Hl) as (Hstep & Hall & _).
  split.
  - refine (eq_trans (Hall "index" {[ "content" := HTML "<html>Welcome</html>" ]} _ _) _).
    + vm_compute. reflexivity.
    + eapply (composed_cons (W := W_site) "index" [""] _ _ (Some " Welcome ")).
      { vm_compute. reflexivity. }
      eapply (composed_cons (W := W_site) "" [] _ _ (Some "<html>Welcome</html>")).
      { vm_compute. reflexivity. }
      apply composed_nil_eq. vm_compute. reflexivity.
    + vm_compute. reflexivity.
  - refine (eq_trans (Hstep [] [""] "index" ∅ ∅ (Some " Welcome ") 0%nat (s1 ∅) _ _ _) _).
    + constructor.
    + vm_compute. reflexivity.
    + vm_compute. reflexivity.
    + vm_compute. reflexivity.
Defined.

(** C6, on the page whose root layout breaks. *)
Lemma RenderPage_aborts_at_first_failure_witness :
  RenderPage (W := W_broken) "p" (Some 0%nat) (s1 ∅) =
    (Done (None, Some (Failure "layout")),
     mkState {[ 0%nat := {[ "content" := HTML "partial" ]} ]}
             [EvPage "p"; EvExec InPages "p"; EvExec InPages ""]).
Proof.
  refine (eq_trans
            (RenderPage_aborts_at_first_failure (W := W_broken) "p" "p" "" ["p"] []
               {[ "content" := HTML "partial" ]} None (Failure "layout")
               (Some 0%nat) (s1 ∅) eq_refl _ _ _ _ _) _).
  - eexists. vm_compute. reflexivity.
  - vm_compute. reflexivity.
  - vm_compute. reflexivity.
  - eapply (composed_cons (W := W_broken) "p" [] _ _ (Some "partial")).
    + vm_compute. reflexivity.
    + apply composed_nil_eq. vm_compute. reflexivity.
  - vm_compute. reflexivity.
  - vm_compute. reflexivity.
Defined.

(** C8, on a registered and on an unregistered standalone path. *)
Lemma RenderStandalone_lookup_witness :
  RenderStandalone (W := W_site) "$nav" None s0
    = (Done (Some "<nav/>", None), mkState ∅ [EvExec InStandalone "$nav"]) /\
  RenderStandalone (W := W_site) "index" None s0 = (Done (None, Some NotFound), s0) /\
  (exists r s',
      RenderStandalone (W := W_site) "$nav" None s0 = (Done r, s') /\
      (snd r = Some NotFound <-> found widgets "$nav" = false)).
Proof.
  split; [|split].
  - destruct (RenderStandalone_lookup (W := W_site) "$nav" None s0 eq_refl)
      as (_ & H & _).
    exact (H eq_refl).
  - destruct (RenderStandalone_lookup (W := W_site) "index" None s0 eq_refl)
      as (H & _ & _).
    exact (H eq_refl).
  - destruct (RenderStandalone_lookup (W := W_site) "$nav" None s0 eq_refl)
      as (_ & _ & r & s' & E & _ & _ & H).
    exists r, s'. split; [exact E|]. apply H.
    intros m _. vm_compute. discriminate.
Defined.

(** C9, counterexample.  The page's own template shows the "content"
    entry: called again with the bag of the first call, [RenderPage] returns
    other bytes. *)
Lemma RenderPage_differs_on_reused_bag :
  fst (RenderPage (W := W_echo) "p" (Some 0%nat) (s1 ∅)) = Done (Some "<x>", None) /\
  fst (RenderPage (W := W_echo) "p" (Some 0%nat)
         (snd (RenderPage (W := W_echo) "p" (Some 0%nat) (s1 ∅))))
    = Done (Some "<x<x>>", None).
Proof. split; vm_compute; reflexivity. Qed.

Lemma RenderPage_repeatable_witness :
  exists s'',
    RenderPage (W := W_site) "index" (Some 0%nat)
      (snd (RenderPage (W := W_site) "index" (Some 0%nat) (s1 ∅)))
    = (Done (Some "<html>Welcome</html>", None), s'').
Proof.
  destruct (RenderPage_repeatable (W := W_site) "index" (Some 0%nat) (s1 ∅)
              (snd (RenderPage (W := W_site) "index" (Some 0%nat) (s1 ∅)))
              (Some "<html>Welcome</html>") eq_refl)
    as [_ H].
  - eexists. vm_compute. reflexivity.
  - apply run_eq. vm_compute. reflexivity.
  - apply H. intros p pt rest m v Hp Hch.
    vm_compute in Hp. injection Hp as <-.
    vm_compute in Hch. injection Hch as <- <-. reflexivity.
Defined.

(** C10, counterexample.  With a nil bag the content composed before the
    failure is lost: the page of 500 shows an empty "content", where with a
    bag it shows the output of the template that had rendered. *)
Lemma Render_nil_bag_drops_partial_content :
  fst (Render (W := W_broken) 3 "p" None s0)
    = Done (Some "<[]>", Some (Failure "layout")) /\
  fst (Render (W := W_broken) 3 "p" (Some 0%nat) (s1 ∅))
    = Done (Some "<[partial]>", Some (Failure "layout")).
Proof. split; vm_compute; reflexivity. Qed.

Lemma Render_hands_over_partial_content_witness :
  exists s',
    RenderPage (W := W_broken) "p" (Some 0%nat) (s1 ∅)
      = (Done (None, Some (Failure "layout")), s') /\
    start_bag (Some 0%nat) s' !! "content" = Some (HTML "partial") /\
    Render (W := W_broken) 3 "p" (Some 0%nat) (s1 ∅)
      = RenderError (W := W_broken) 3 (Some (Failure "layout")) (Some 0%nat) s'.
Proof.
  destruct (Render_hands_over_partial_content (W := W_broken) 3 "p" "p" "p" ""
              [] [] ∅ (Some "partial") None (Failure "layout") 0%nat (s1 ∅) eq_refl)
    as (s' & E & _ & Hc & Hr & _).
  - eexists. vm_compute. reflexivity.
  - vm_compute. reflexivity.
  - vm_compute. reflexivity.
  - apply composed_nil_eq. vm_compute. reflexivity.
  - vm_compute. reflexivity.
  - vm_compute. reflexivity.
  - exists s'. split; [exact E|]. split; [exact Hc|exact Hr].
Defined.

End Runs.

(** * Further facts: frames, fallbacks and what the functions never do *)
Section MoreFacts.

Context `{W : World}.

(** ** What a render call leaves alone *)

Lemma touches_refl (data : option loc) (s : state) : touches_only_content data s s.
Proof. intros l m H. exists m. by repeat split. Qed.

Lemma touches_trans (data : option loc) (s1 s2 s3 : state) :
  touches_only_content data s1 s2 ->
  touches_only_content data s2 s3 ->
  touches_only_content data s1 s3.
Proof.
  intros H12 H23 l m H.
  destruct (H12 l m H) as (m2 & H2 & Hk2 & Hd2).
  destruct (H23 l m2 H2) as (m3 & H3 & Hk3 & Hd3).
  exists m3. split; [done|]. split.
  - intros k Hk. rewrite Hk3 by done. by apply Hk2.
  - intros Hd. rewrite Hd3 by done. by apply Hd2.
Qed.

Lemma touches_trace (data : option loc) (s : state) (t : list event) :
  touches_only_content data s (mkState (heap s) t).
Proof. intros l m H. exists m. by repeat split. Qed.

(** Putting a bag that differs from the start bag at most under "content"
    in the cell of the call. *)
Lemma touches_cell (data : option loc) (s : state) (m' : Bag) (t : list event) :
  live data s ->
  (forall k : string, k <> "content" -> m' !! k = start_bag data s !! k) ->
  touches_only_content data s (mkState (<[cell data s := m']> (heap s)) t).
Proof.
  intros Hl Hk l m H. simpl.
  destruct (decide (cell data s = l)) as [<-|Hne].
  - destruct data as [l0|]; simpl in *.
    + exists m'. rewrite lookup_insert_eq. split; [done|]. split; [|done].
      intros k Hkc. rewrite Hk by done. by rewrite H.
    + exfalso. apply (is_fresh (dom (heap s))). apply elem_of_dom. eauto.
  - exists m. rewrite lookup_insert_ne by done. repeat split; try done.
Qed.

Lemma composed_off_content (l : list string) (m m' : Bag) (k : string) :
  composed l m m' -> k <> "content" -> m' !! k = m !! k.
Proof.
  intros Hc Hk. destruct (composed_content _ _ _ Hc) as [-> | [v ->]]; [done|].
  by rewrite lookup_insert_ne.
Qed.

Lemma RenderPage_frame (path : string) (data : option loc) (s : state) :
  live data s ->
  touches_only_content data s (snd (RenderPage path data s)) /\
  live data (snd (RenderPage path data s)).
Proof.
  intros Hl. destruct ready eqn:Hr.
  - assert (Hlive : forall m t, live data (mkState (<[cell data s := m]> (heap s)) t)).
    { intros m t. destruct data as [l|]; simpl; [|done]. rewrite lookup_insert_eq. eauto. }
    destruct (RenderPage_cases path data s Hr Hl)
      as [(p & e & _ & E) | [(p & l1 & pt & l2 & m1 & b & e & _ & _ & Hc & _ & E)
                            | (p & m' & _ & Hc & E)]];
      rewrite E; simpl; (split; [apply touches_cell; [done|]|apply Hlive]).
    + done.
    + intros k Hk. by eapply composed_off_content.
    + intros k Hk. by eapply composed_off_content.
  - rewrite RenderPage_not_ready by done. simpl. split; [apply touches_refl|done].
Qed.

(** X1.  Whatever its outcome, [RenderPage] keeps every map of the heap,
    changes no map other than the caller's bag, and in the caller's bag
    changes at most the "content" entry: every other key keeps its value. *)
Theorem RenderPage_touches_only_content (path : string) (data : option loc)
    (s : state) :
  live data s ->
  touches_only_content data s (snd (RenderPage path data s)).
Proof. intros Hl. by apply RenderPage_frame. Qed.

Lemma body_frame (data : option loc) (e : error) (v : locals) (s : state) :
  live data s ->
  touches_only_content data s (snd (RenderError_body data e v s)) /\
  live data (snd (RenderError_body data e v s)).
Proof.
  intros Hl. unfold RenderError_body.
  destruct (RenderPage_frame (ErrorPath e) data s Hl) as [Ht Hl'].
  repeat case_bool_decide; unfold bind, log, emit, ret; simpl;
    try (destruct (RenderPage (ErrorPath e) data s) as [[r| |] s1]; simpl in *; by split).
  split; [apply touches_trace|]. by destruct data.
Qed.

Lemma loop_frame (fuel : nat) (data : option loc) :
  forall (v : locals) (s : state),
    live data s ->
    touches_only_content data s (snd (RenderError_loop fuel data v s)).
Proof.
  induction fuel as [|fuel IH]; intros v s Hl; simpl;
    destruct (l_err v) as [e|]; try apply touches_refl.
  unfold bind. destruct (body_frame data e v s Hl) as [Ht Hl'].
  destruct (RenderError_body data e v s) as [[[v1|v1]| |] s1]; simpl in *; try done.
  eapply touches_trans; [exact Ht|]. by apply IH.
Qed.

(** X2.  The same holds for a whole [Render] call, error cascade included,
    however far the cascade gets: no map other than the caller's bag is
    changed, and the caller's bag is changed at most under "content". *)
Theorem Render_touches_only_content (fuel : nat) (path : string)
    (data : option loc) (s : state) :
  live data s ->
  touches_only_content data s (snd (Render fuel path data s)).
Proof.
  intros Hl. unfold Render, assertReady.
  destruct ready; unfold bind at 1; simpl; [|apply touches_refl].
  unfold bind. destruct (RenderPage_frame path data s Hl) as [Ht Hl'].
  destruct (RenderPage path data s) as [[[b [e|]]| |] s1]; simpl in *; try done.
  eapply touches_trans; [exact Ht|].
  unfold RenderError, RenderError_from, bind.
  pose proof (loop_frame fuel data (entry (Some e)) s1 Hl') as Hloop.
  by destruct (RenderError_loop fuel data (entry (Some e)) s1) as [[v'| |] s2].
Qed.

(** ** What [RenderPage] returns *)

(** X3.  When the chain composes, the bytes [RenderPage] returns are the
    output of the last template of the chain, the root layout, with the
    surrounding white space trimmed. *)
Theorem RenderPage_returns_trimmed_root (path p root : string) (l1 : list string)
    (m1 : Bag) (b : Bytes) (data : option loc) (s : state) :
  ready = true ->
  live data s ->
  parsePath path Pages = (p, None) ->
  pathsToTemplates p = l1 ++ [root] ->
  composed l1 (start_bag data s) m1 ->
  renderAt root (Some m1) Pages = (b, None) ->
  fst (RenderPage path data s) = Done (Some (TrimSpace (string_of b)), None).
Proof.
  intros Hr Hl Hp Hch Hc Hb.
  assert (Hall : composed (pathsToTemplates p) (start_bag data s)
                   (<["content" := HTML (TrimSpace (string_of b))]> m1)).
  { rewrite Hch. eapply composed_app; [exact Hc|]. econstructor; [exact Hb|constructor]. }
  rewrite (RenderPage_composes path p _ data s Hr Hl Hp Hall). simpl.
  by rewrite lookup_insert_eq.
Qed.

(** X4.  When [parsePath] fails, [RenderPage] returns nil bytes and that
    error; it executes no template and leaves every map of the heap as it
    was. *)
Theorem RenderPage_parse_failure (path p : string) (e : error) (data : option loc)
    (s : state) :
  ready = true ->
  live data s ->
  parsePath path Pages = (p, Some e) ->
  fst (RenderPage path data s) = Done (None, Some e) /\
  trace (snd (RenderPage path data s)) = trace s ++ [EvPage path] /\
  (forall l m, heap s !! l = Some m -> heap (snd (RenderPage path data s)) !! l = Some m).
Proof.
  intros Hr Hl Hp. rewrite (RenderPage_parse_fails path p e data s Hr Hl Hp). simpl.
  split; [done|]. split; [done|]. intros l m H.
  destruct (decide (cell data s = l)) as [<-|Hne]; [|by rewrite lookup_insert_ne].
  rewrite lookup_insert_eq. destruct data as [l0|]; simpl in *.
  - by rewrite H.
  - exfalso. apply (is_fresh (dom (heap s))). apply elem_of_dom. eauto.
Qed.

(** ** The cascade and [Render] *)

Lemma RenderError_one_pass (fuel : nat) (e : error) (out : string)
    (data : option loc) (s s' : state) :
  RenderPage (ErrorPath e) data s = (Done (Some out, None), s') ->
  RenderError (S fuel) (Some e) data s = (Done (Some out, Some e), s').
Proof.
  intros H. unfold RenderError, RenderError_from. unfold bind at 1.
  cbn [RenderError_loop entry l_err]. unfold bind at 1.
  rewrite body_first_seen by set_solver. unfold bind at 1. rewrite H.
  cbn [ret snd fst]. by rewrite loop_no_error.
Qed.

(** X5.  When the page of the initial error renders, [RenderError] is done
    after that single attempt: it returns the page's bytes, and the last
    error is the initial error itself. *)
Theorem RenderError_first_page_renders (fuel : nat) (e : error) (out : string)
    (data : option loc) (s s' : state) :
  ready = true ->
  live data s ->
  RenderPage (ErrorPath e) data s = (Done (Some out, None), s') ->
  RenderError (S fuel) (Some e) data s = (Done (Some out, Some e), s') /\
  attempts (trace s') = S (attempts (trace s)).
Proof.
  intros Hr Hl H. split; [by apply RenderError_one_pass|].
  destruct (RenderPage_returns (ErrorPath e) data s Hr Hl) as (r & s1 & E & _ & Ha & _).
  rewrite E in H. by simplify_eq.
Qed.

(** X6.  [Render] on a page that fails, when the page of that error
    renders: the bytes are those of the error page, and the error returned
    is the one the requested page failed with. *)
Theorem Render_falls_back_to_error_page (fuel : nat) (path : string) (b : Bytes)
    (e : error) (out : string) (data : option loc) (s s1 s2 : state) :
  ready = true ->
  RenderPage path data s = (Done (b, Some e), s1) ->
  RenderPage (ErrorPath e) data s1 = (Done (Some out, None), s2) ->
  Render (S fuel) path data s = (Done (Some out, Some e), s2).
Proof.
  intros Hr H1 H2. rewrite (Render_failure _ _ _ _ _ _ _ Hr H1).
  by apply RenderError_one_pass.
Qed.

Lemma loop_result (fuel : nat) (data : option loc) :
  ready = true ->
  forall (v v' : locals) (s s' : state) (e : error),
    l_err v = Some e ->
    live data s ->
    RenderError_loop fuel data v s = (Done v', s') ->
    is_Some (l_bytes v') /\ is_Some (l_lastErr v').
Proof.
  intros Hr. induction fuel as [|fuel IH]; intros v v' s s' e He Hl H;
    simpl in H; rewrite He in H; [discriminate H|].
  unfold bind in H. unfold RenderError_body in H.
  destruct (RenderPage_returns (ErrorPath e) data s Hr Hl)
    as (r & s1 & E & Hl1 & _ & Hshape).
  repeat case_bool_decide; unfold bind, log, emit, ret in H; simpl in H;
    try rewrite E in H; simpl in H.
  - simplify_eq. simpl. split; [apply fallback_not_nil|eauto].
  - destruct Hshape as [(out & ->) | (e1 & ->)]; simpl in H.
    + rewrite loop_no_error in H by done. simplify_eq. simpl. eauto.
    + eapply (IH _ _ _ _ e1); [|exact Hl1|exact H]; done.
  - destruct Hshape as [(out & ->) | (e1 & ->)]; simpl in H.
    + rewrite loop_no_error in H by done. simplify_eq. simpl. eauto.
    + eapply (IH _ _ _ _ e1); [|exact Hl1|exact H]; done.
Qed.

Lemma RenderError_result_not_nil_aux (fuel : nat) (e : error) (data : option loc)
    (s s' : state) (b : Bytes) (le : option error) :
  ready = true ->
  live data s ->
  RenderError fuel (Some e) data s = (Done (b, le), s') ->
  is_Some b /\ is_Some le.
Proof.
  intros Hr Hl H. unfold RenderError, RenderError_from, bind in H.
  destruct (RenderError_loop fuel data (entry (Some e)) s) as [[v'| |] s1] eqn:E;
    unfold ret in H; simplify_eq.
  by eapply (loop_result fuel data Hr (entry (Some e))).
Qed.

(** X7.  Started with a non-nil error, [RenderError] never returns nil
    bytes nor a nil last error, whatever the error pages do. *)
Theorem RenderError_result_not_nil (fuel : nat) (e : error) (data : option loc)
    (s s' : state) (b : Bytes) (le : option error) :
  ready = true ->
  live data s ->
  RenderError fuel (Some e) data s = (Done (b, le), s') ->
  is_Some b /\ is_Some le.
Proof. apply RenderError_result_not_nil_aux. Qed.

(** X8.  What [Render] returns always has bytes, and its error is nil
    exactly when the requested page itself rendered. *)
Theorem Render_error_nil_iff_page_rendered (fuel : nat) (path : string)
    (data : option loc) (s s' : state) (b : Bytes) (le : option error) :
  ready = true ->
  live data s ->
  Render fuel path data s = (Done (b, le), s') ->
  is_Some b /\
  (le = None <-> exists out s1, RenderPage path data s = (Done (Some out, None), s1)).
Proof.
  intros Hr Hl H.
  destruct (RenderPage_returns path data s Hr Hl)
    as (r & s1 & E & Hl1 & _ & [(out & ->) | (e & ->)]).
  - unfold Render, assertReady in H. rewrite Hr in H.
    unfold bind at 1 in H; simpl in H. unfold bind at 1 in H. rewrite E in H.
    simpl in H. unfold ret in H. simplify_eq. split; [eauto|]. split; [eauto|done].
  - rewrite (Render_failure _ _ _ _ _ _ _ Hr E) in H.
    destruct (RenderError_result_not_nil_aux fuel e data s1 s' b le Hr Hl1 H)
      as [Hb [e' ->]].
    split; [done|]. split; [done|]. intros (out & s2 & E2). rewrite E in E2. discriminate E2.
Qed.


(** X9.  When the initial error is classified 500 and its page fails with
    another error classified 500, the cascade stops there: one attempt, the
    double failure logged, the fallback bytes returned with the second
    error. *)
Theorem RenderError_failing_500_page (fuel : nat) (e e1 : error) (b : Bytes)
    (data : option loc) (s s1 : state) :
  ErrorCode e = 500 ->
  RenderPage (ErrorPath e) data s = (Done (b, Some e1), s1) ->
  ErrorCode e1 = 500 ->
  RenderError (S (S fuel)) (Some e) data s =
    (Done (fallback, Some e1),
     mkState (heap s1) (trace s1 ++ [EvLog "internal rendering error"])).
Proof.
  intros Hc H Hc1. unfold RenderError, RenderError_from. unfold bind at 1.
  cbn [RenderError_loop entry l_err]. unfold bind at 1.
  rewrite body_first_seen by set_solver. unfold bind at 1. rewrite H.
  cbn [ret snd fst l_err]. unfold bind at 1.
  rewrite body_break; [done|done|]. cbn [l_codes]. rewrite Hc. set_solver.
Qed.

(** X10.  A cascade that starts with an error of another code, whose page
    fails with an error classified 500, whose page fails with an error
    classified 500 again: two attempts, then the fallback bytes with the
    last of the three errors. *)
Theorem RenderError_falls_through_to_fallback (fuel : nat) (e e1 e2 : error)
    (b1 b2 : Bytes) (data : option loc) (s s1 s2 : state) :
  ErrorCode e <> 500 ->
  RenderPage (ErrorPath e) data s = (Done (b1, Some e1), s1) ->
  ErrorCode e1 = 500 ->
  RenderPage (ErrorPath e1) data s1 = (Done (b2, Some e2), s2) ->
  ErrorCode e2 = 500 ->
  RenderError (S (S (S fuel))) (Some e) data s =
    (Done (fallback, Some e2),
     mkState (heap s2) (trace s2 ++ [EvLog "internal rendering error"])).
Proof.
  intros Hc H1 Hc1 H2 Hc2. unfold RenderError, RenderError_from. unfold bind at 1.
  cbn [RenderError_loop entry l_err]. unfold bind at 1.
  rewrite body_first_seen by set_solver. unfold bind at 1. rewrite H1.
  cbn [ret snd fst l_err]. unfold bind at 1.
  rewrite body_first_seen
    by (cbn [l_codes]; rewrite Hc1; apply not_elem_of_add;
        [congruence|apply not_elem_of_empty]).
  unfold bind at 1. rewrite H2. cbn [ret snd fst l_err]. unfold bind at 1.
  rewrite body_break; [done|done|]. cbn [l_codes]. rewrite Hc1. set_solver.
Qed.

(** X11.  With an empty chain [RenderPage] executes nothing and returns
    what the bag already holds under "content": that string when it is a
    [template.HTML], and empty bytes, not nil, when the key is absent or
    holds a value of another type. *)
Theorem RenderPage_empty_chain (path p : string) (data : option loc) (s : state) :
  ready = true ->
  live data s ->
  parsePath path Pages = (p, None) ->
  pathsToTemplates p = [] ->
  trace (snd (RenderPage path data s)) = trace s ++ [EvPage path] /\
  (forall h, start_bag data s !! "content" = Some (HTML h) ->
             fst (RenderPage path data s) = Done (Some h, None)) /\
  (forall a, start_bag data s !! "content" = Some (Other a) ->
             fst (RenderPage path data s) = Done (Some "", None)) /\
  (start_bag data s !! "content" = None ->
   fst (RenderPage path data s) = Done (Some "", None)).
Proof.
  intros Hr Hl Hp Hch.
  assert (Hc : composed (pathsToTemplates p) (start_bag data s) (start_bag data s))
    by (rewrite Hch; constructor).
  rewrite (RenderPage_composes path p _ data s Hr Hl Hp Hc). rewrite Hch. simpl.
  split; [done|]. split; [|split].
  - intros h Hx. by rewrite Hx.
  - intros a Hx. by rewrite Hx.
  - intros Hx. by rewrite Hx.
Qed.

(** X12.  A successful [RenderPage] executes the templates of the chain
    once each, in the order of the chain, leaf first, all in the page
    registry, after the page itself was entered. *)
Theorem RenderPage_executes_chain_in_order (path : string) (data : option loc)
    (s s' : state) (out : Bytes) :
  ready = true ->
  live data s ->
  RenderPage path data s = (Done (out, None), s') ->
  exists p,
    parsePath path Pages = (p, None) /\
    trace s' = trace s ++ EvPage path :: map (EvExec InPages) (pathsToTemplates p).
Proof.
  intros Hr Hl H.
  destruct (RenderPage_success_inv _ _ _ _ _ Hr Hl H) as (p & m' & Hp & _ & _ & ->).
  by exists p.
Qed.


Lemma loop_recurring (e : error) (data : option loc) :
  ErrorCode e <> 500 ->
  (forall s, live data s ->
             exists b s1, RenderPage (ErrorPath e) data s = (Done (b, Some e), s1)) ->
  forall (fuel : nat) (v : locals) (s : state),
    l_err v = Some e ->
    live data s ->
    fst (RenderError_loop fuel data v s) = OutOfFuel.
Proof.
  intros Hc Hpage. induction fuel as [|fuel IH]; intros v s He Hl;
    cbn [RenderError_loop]; rewrite He; [done|].
  destruct (Hpage s Hl) as (b & s1 & E).
  pose proof (RenderPage_frame (ErrorPath e) data s Hl) as [_ Hl1].
  rewrite E in Hl1. simpl in Hl1.
  unfold bind at 1. unfold RenderError_body.
  rewrite (bool_decide_eq_false_2 (ErrorCode e = 500)) by done.
  case_bool_decide; unfold bind at 1; rewrite E; cbn [ret snd fst]; by apply IH.
Qed.

(** X13.  When the page of an error that is not classified 500 fails with
    that same error in every state, as it does when the page is missing and
    the error is the one [parsePath] fails with, [RenderError] started with
    that error does not return: every pass attempts the same page again. *)
Theorem RenderError_never_returns_on_recurring_error (fuel : nat) (e : error)
    (data : option loc) (s : state) :
  ErrorCode e <> 500 ->
  (forall s, live data s ->
             exists b s1, RenderPage (ErrorPath e) data s = (Done (b, Some e), s1)) ->
  live data s ->
  fst (RenderError fuel (Some e) data s) = OutOfFuel.
Proof.
  intros Hc Hpage Hl. unfold RenderError, RenderError_from, bind.
  pose proof (loop_recurring e data Hc Hpage fuel (entry (Some e)) s eq_refl Hl) as H.
  by destruct (RenderError_loop fuel data (entry (Some e)) s) as [[v'| |] s1].
Qed.

End MoreFacts.

(** * The further facts on concrete worlds *)
Module MoreRuns.

Import Sample.

Lemma RenderPage_touches_only_content_witness :
  touches_only_content (Some 0%nat) (s1 {[ "title" := Other "Home" ]})
    (snd (RenderPage (W := W_site) "index" (Some 0%nat)
            (s1 {[ "title" := Other "Home" ]}))).
Proof.
  apply (RenderPage_touches_only_content (W := W_site)).
  eexists. vm_compute. reflexivity.
Defined.

Lemma Render_touches_only_content_witness :
  touches_only_content (Some 0%nat) (s1 {[ "title" := Other "Home" ]})
    (snd (Render (W := W_site) 3 "missing" (Some 0%nat)
            (s1 {[ "title" := Other "Home" ]}))).
Proof.
  apply (Render_touches_only_content (W := W_site)).
  eexists. vm_compute. reflexivity.
Defined.

Lemma RenderPage_returns_trimmed_root_witness :
  fst (RenderPage (W := W_site) "index" None s0)
  = Done (Some "<html>Welcome</html>", None).
Proof.
  refine (RenderPage_returns_trimmed_root (W := W_site) "index" "index" "" ["index"]
            {[ "content" := HTML "Welcome" ]} (Some "<html>Welcome</html>")
            None s0 eq_refl I _ _ _ _).
  - vm_compute. reflexivity.
  - vm_compute. reflexivity.
  - eapply (composed_cons (W := W_site) "index" [] _ _ (Some " Welcome ")).
    + vm_compute. reflexivity.
    + apply composed_nil_eq. vm_compute. reflexivity.
  - vm_compute. reflexivity.
Defined.

Lemma RenderPage_parse_failure_witness :
  fst (RenderPage (W := W_site) "missing" None s0) = Done (None, Some NotFound) /\
  trace (snd (RenderPage (W := W_site) "missing" None s0)) = [EvPage "missing"].
Proof.
  destruct (RenderPage_parse_failure (W := W_site) "missing" "" NotFound None s0
              eq_refl I)
    as (H1 & H2 & _).
  - vm_compute. reflexivity.
  - split; [exact H1|exact H2].
Defined.

Lemma RenderError_first_page_renders_witness :
  fst (RenderError (W := W_full) 1 (Some NotFound) None s0)
  = Done (Some "<html>Not found</html>", Some NotFound).
Proof.
  destruct (RenderError_first_page_renders (W := W_full) 0 NotFound
              "<html>Not found</html>" None s0
              (snd (RenderPage (W := W_full) "404" None s0)) eq_refl I)
    as [H _].
  - apply run_eq. vm_compute. reflexivity.
  - exact (f_equal fst H).
Defined.

Lemma Render_falls_back_to_error_page_witness :
  fst (Render (W := W_full) 1 "missing" None s0)
  = Done (Some "<html>Not found</html>", Some NotFound).
Proof.
  refine (f_equal fst
            (Render_falls_back_to_error_page (W := W_full) 0 "missing" None NotFound
               "<html>Not found</html>" None s0
               (snd (RenderPage (W := W_full) "missing" None s0))
               (snd (RenderPage (W := W_full) "404" None
                       (snd (RenderPage (W := W_full) "missing" None s0))))
               eq_refl _ _)).
  - apply run_eq. vm_compute. reflexivity.
  - apply run_eq. vm_compute. reflexivity.
Defined.

Lemma RenderError_result_not_nil_witness :
  is_Some (Some "500 Internal Server Error") /\
  is_Some (Some (Failure "bang")).
Proof.
  refine (RenderError_result_not_nil (W := W_ladder) 5 NotFound None s0
            (snd (RenderError (W := W_ladder) 5 (Some NotFound) None s0))
            (Some "500 Internal Server Error") (Some (Failure "bang"))
            eq_refl I _).
  apply run_eq. vm_compute. reflexivity.
Defined.

Lemma Render_error_nil_iff_page_rendered_witness :
  exists out s',
    RenderPage (W := W_full) "index" None s0 = (Done (Some out, None), s').
Proof.
  destruct (Render_error_nil_iff_page_rendered (W := W_full) 1 "index" None s0
              (snd (Render (W := W_full) 1 "index" None s0))
              (Some "<html>Welcome</html>") None eq_refl I)
    as [_ [H _]].
  - apply run_eq. vm_compute. reflexivity.
  - exact (H eq_refl).
Defined.

Lemma RenderError_failing_500_page_witness :
  fst (RenderError (W := W_ladder) 2 (Some (Failure "first")) None s0)
  = Done (Some "500 Internal Server Error", Some (Failure "bang")).
Proof.
  refine (f_equal fst
            (RenderError_failing_500_page (W := W_ladder) 0 (Failure "first")
               (Failure "bang") None None s0
               (snd (RenderPage (W := W_ladder) "500" None s0)) eq_refl _ eq_refl)).
  apply run_eq. vm_compute. reflexivity.
Defined.

Lemma RenderError_falls_through_to_fallback_witness :
  fst (RenderError (W := W_ladder) 3 (Some (Status 401)) None s0)
  = Done (Some "500 Internal Server Error", Some (Failure "bang")).
Proof.
  refine (f_equal fst
            (RenderError_falls_through_to_fallback (W := W_ladder) 0 (Status 401)
               (Failure "boom") (Failure "bang") None None None s0
               (snd (RenderPage (W := W_ladder) "401" None s0))
               (snd (RenderPage (W := W_ladder) "500" None
                       (snd (RenderPage (W := W_ladder) "401" None s0))))
               _ _ eq_refl _ eq_refl)).
  - discriminate.
  - apply run_eq. vm_compute. reflexivity.
  - apply run_eq. vm_compute. reflexivity.
Defined.

Lemma RenderPage_empty_chain_witness :
  fst (RenderPage (W := W_chainless) "index" (Some 0%nat)
         (s1 {[ "content" := Other "raw" ]}))
  = Done (Some "", None).
Proof.
  destruct (RenderPage_empty_chain (W := W_chainless) "index" "index" (Some 0%nat)
              (s1 {[ "content" := Other "raw" ]}) eq_refl)
    as (_ & _ & H & _).
  - eexists. vm_compute. reflexivity.
  - vm_compute. reflexivity.
  - reflexivity.
  - apply (H "raw"). vm_compute. reflexivity.
Defined.

Lemma RenderPage_executes_chain_in_order_witness :
  trace (snd (RenderPage (W := W_site) "index" None s0))
  = [EvPage "index"; EvExec InPages "index"; EvExec InPages ""].
Proof.
  destruct (RenderPage_executes_chain_in_order (W := W_site) "index" None s0
              (snd (RenderPage (W := W_site) "index" None s0))
              (Some "<html>Welcome</html>") eq_refl I)
    as (p & Hp & Ht).
  - apply run_eq. vm_compute. reflexivity.
  - rewrite Ht. vm_compute in Hp. injection Hp as <-. vm_compute. reflexivity.
Defined.

Lemma RenderError_never_returns_on_recurring_error_witness :
  fst (RenderError (W := W_site) 9 (Some NotFound) None s0) = OutOfFuel.
Proof.
  apply (RenderError_never_returns_on_recurring_error (W := W_site) 9 NotFound None s0).
  - discriminate.
  - intros s Hl. eexists _, _.
    apply (RenderPage_parse_fails (W := W_site) "404" "" NotFound None s eq_refl Hl).
    reflexivity.
  - exact I.
Defined.

End MoreRuns.
